(** * pwv: a command-line client for the CyberArk password vault

    A shallow embedding of the vault API client (the timestamp codec
    [caTime.UnmarshalJSON], the session operations of [caAPI]) and of the
    batch retrieval loop of [main.go], with the properties of the
    specification stated and proved over it.

    Go strings are byte sequences: they are modelled as [string], whose
    characters ([ascii]) are exactly the 256 byte values.  Go integers are
    modelled as [Z] with their wrap-around written out. *)

From Stdlib Require Import ZArith String Ascii List Bool Lia.
From Stdlib Require Import Decimal DecimalString DecimalPos DecimalN DecimalZ.
Import ListNotations.

Open Scope string_scope.
Open Scope Z_scope.

(* ================================================================= *)
(** ** Go basics: machine integers, bytes, errors *)

(** The two word sizes Go's [int] can have ([strconv.IntSize]). *)
Inductive GOARCH := arch32 | arch64.

Definition intSize (a : GOARCH) : Z :=
  match a with arch32 => 32 | arch64 => 64 end.

(** Conversion to an unsigned integer of [bits] bits. *)
Definition wrap_uint (bits : Z) (z : Z) : Z := z mod 2 ^ bits.

(** Conversion to a signed (two's complement) integer of [bits] bits. *)
Definition wrap_int (bits : Z) (z : Z) : Z :=
  (z + 2 ^ (bits - 1)) mod 2 ^ bits - 2 ^ (bits - 1).

Definition byte_val (c : ascii) : Z := Z.of_N (N_of_ascii c).

(** The double quote character, byte 34. *)
Definition dquote : ascii := Ascii false true false false false true false false.

(** The line feed character, byte 10. *)
Definition newline : string :=
  String (Ascii false true false true false false false false) EmptyString.

(** [len(s)] *)
Definition len (s : string) : Z := Z.of_nat (String.length s).

(** The sentinel errors of package strconv. *)
Inductive strconvErr := ErrSyntax | ErrRange.

(** Where an error value that the program only passes on was made. *)
Inductive origin := net_http | io_ioutil | encoding_json.

(** Go [error] values, as far as the program can tell them apart:
    [*strconv.NumError], the values built by [fmt.Errorf], and the values
    handed back by net/http, ioutil and encoding/json, of which the
    program only ever uses the message. *)
Inductive error :=
| NumError (Func Num : string) (Err : strconvErr)
| errorString (msg : string)
| libError (o : origin) (msg : string).

(* ================================================================= *)
(** ** Package strings *)

Module strings.

Fixpoint IndexByte (cutset : string) (c : ascii) : bool :=
  match cutset with
  | EmptyString => false
  | String d rest => if Ascii.eqb c d then true else IndexByte rest c
  end.

(** [strings.TrimLeft(s, cutset)] for a cutset of ASCII bytes: the leading
    bytes of [s] that occur in [cutset] are removed. *)
Fixpoint TrimLeft (s cutset : string) : string :=
  match s with
  | EmptyString => EmptyString
  | String c rest => if IndexByte cutset c then TrimLeft rest cutset else s
  end.

(** [strings.TrimRight(s, cutset)] for a cutset of ASCII bytes: the
    trailing bytes of [s] that occur in [cutset] are removed. *)
Fixpoint TrimRight (s cutset : string) : string :=
  match s with
  | EmptyString => EmptyString
  | String c rest =>
      match TrimRight rest cutset with
      | EmptyString => if IndexByte cutset c then EmptyString else String c EmptyString
      | t => String c t
      end
  end.

(** [strings.Trim(s, cutset)] for a cutset of ASCII bytes. *)
Definition Trim (s cutset : string) : string :=
  TrimRight (TrimLeft s cutset) cutset.

(** [strings.Split(s, sep)] for a separator [sep] of one byte: the pieces
    of [s] between the separators, the empty ones included. *)
Fixpoint Split (s : string) (sep : ascii) : list string :=
  match s with
  | EmptyString => [EmptyString]
  | String c rest =>
      if Ascii.eqb c sep then EmptyString :: Split rest sep
      else
        match Split rest sep with
        | piece :: pieces => String c piece :: pieces
        | [] => [String c EmptyString]
        end
  end.

(** The first loop of [strings.ToUpper]: no byte is [utf8.RuneSelf] or
    above. *)
Fixpoint isASCII (s : string) : bool :=
  match s with
  | EmptyString => true
  | String c rest => (byte_val c <? 128) && isASCII rest
  end.

(** [c -= 'a' - 'A'] on a lower-case letter. *)
Definition upperByte (c : ascii) : ascii :=
  if (97 <=? byte_val c) && (byte_val c <=? 122)
  then ascii_of_N (Z.to_N (byte_val c - 32))
  else c.

(** The ASCII branch of [strings.ToUpper]. *)
Fixpoint upperASCII (s : string) : string :=
  match s with
  | EmptyString => EmptyString
  | String c rest => String (upperByte c) (upperASCII rest)
  end.

End strings.

(* ================================================================= *)
(** ** Package strconv: [Atoi], [ParseInt], [ParseUint] in base 10 *)

Module strconv.

Definition maxUint64 : Z := 2 ^ 64 - 1.

(** The digit [switch] of [ParseUint]: the value of a digit or letter,
    [None] for any other byte. *)
Definition digitVal (c : ascii) : option Z :=
  let b := byte_val c in
  if (48 <=? b) && (b <=? 57) then Some (b - 48)
  else if (97 <=? b) && (b <=? 122) then Some (b - 97 + 10)
  else if (65 <=? b) && (b <=? 90) then Some (b - 65 + 10)
  else None.

(** The loop of [ParseUint(s, 10, bitSize)] over the bytes of [s], with
    the running value [n]; [cutoff = maxUint64/10 + 1]. *)
Fixpoint ParseUint_loop (s : string) (n maxVal : Z) : Z * option strconvErr :=
  match s with
  | EmptyString => (n, None)
  | String c rest =>
      match digitVal c with
      | None => (0, Some ErrSyntax)
      | Some d =>
          if d >=? 10 then (0, Some ErrSyntax)
          else if n >=? maxUint64 / 10 + 1 then (maxVal, Some ErrRange)
          else
            let n' := wrap_uint 64 (n * 10) in
            let n1 := wrap_uint 64 (n' + d) in
            if (n1 <? n') || (n1 >? maxVal) then (maxVal, Some ErrRange)
            else ParseUint_loop rest n1 maxVal
      end
  end.

(** [ParseUint(s, 10, bitSize)] with [bitSize] 0 (meaning [IntSize]). *)
Definition ParseUint (a : GOARCH) (s : string) : Z * option error :=
  if String.eqb s "" then (0, Some (NumError "ParseUint" s ErrSyntax))
  else
    let bitSize := intSize a in
    let maxVal := wrap_uint 64 (wrap_uint 64 (Z.shiftl 1 bitSize) - 1) in
    match ParseUint_loop s 0 maxVal with
    | (n, Some e) => (n, Some (NumError "ParseUint" s e))
    | (n, None) => (n, None)
    end.

(** The second half of [ParseInt(s0, 10, 0)], after the leading sign has
    been picked off: convert the unsigned rest [s] and check the range. *)
Definition ParseInt_convert (a : GOARCH) (s0 : string) (neg : bool) (s : string)
  : Z * option error :=
  match ParseUint a s with
  | (_, Some (NumError _ _ ErrSyntax)) => (0, Some (NumError "ParseInt" s0 ErrSyntax))
  | (un, _) =>
      let bitSize := intSize a in
      let cutoff := wrap_uint 64 (Z.shiftl 1 (bitSize - 1)) in
      if negb neg && (un >=? cutoff) then
        (wrap_int 64 (cutoff - 1), Some (NumError "ParseInt" s0 ErrRange))
      else if neg && (un >? cutoff) then
        (wrap_int 64 (- wrap_int 64 cutoff), Some (NumError "ParseInt" s0 ErrRange))
      else
        let n := wrap_int 64 un in
        let n := if neg then wrap_int 64 (- n) else n in
        (n, None)
  end.

(** [ParseInt(s, 10, 0)]. *)
Definition ParseInt (a : GOARCH) (s : string) : Z * option error :=
  match s with
  | EmptyString => (0, Some (NumError "ParseInt" s ErrSyntax))
  | String c rest =>
      let s0 := s in
      if Ascii.eqb c "+" then ParseInt_convert a s0 false rest
      else if Ascii.eqb c "-" then ParseInt_convert a s0 true rest
      else ParseInt_convert a s0 false s
  end.

(** The loop of the fast path of [Atoi]: [ch -= '0'] on a byte wraps
    around, and [n] is an [int].  [None] is the syntax error. *)
Fixpoint Atoi_loop (a : GOARCH) (s : string) (n : Z) : option Z :=
  match s with
  | EmptyString => Some n
  | String ch rest =>
      let ch := wrap_uint 8 (byte_val ch - 48) in
      if ch >? 9 then None
      else Atoi_loop a rest (wrap_int (intSize a) (n * 10 + ch))
  end.

Definition hasSign (s : string) : bool :=
  match s with
  | String c _ => Ascii.eqb c "-" || Ascii.eqb c "+"
  | EmptyString => false
  end.

Definition isNeg (s : string) : bool :=
  match s with
  | String c _ => Ascii.eqb c "-"
  | EmptyString => false
  end.

(** [s[1:]] *)
Definition tail (s : string) : string :=
  match s with
  | String _ rest => rest
  | EmptyString => EmptyString
  end.

(** [strconv.Atoi(s)]: the value and the error, as Go returns them. *)
Definition Atoi (a : GOARCH) (s : string) : Z * option error :=
  let sLen := len s in
  if (intSize a =? 32) && ((0 <? sLen) && (sLen <? 10))
     || (intSize a =? 64) && ((0 <? sLen) && (sLen <? 19)) then
    let s0 := s in
    let s := if hasSign s then tail s else s in
    if hasSign s0 && (len s <? 1) then (0, Some (NumError "Atoi" s0 ErrSyntax))
    else
      match Atoi_loop a s 0 with
      | None => (0, Some (NumError "Atoi" s0 ErrSyntax))
      | Some n =>
          let n := if isNeg s0 then wrap_int (intSize a) (- n) else n in
          (n, None)
      end
  else
    match ParseInt a s with
    | (i64, Some (NumError _ num e)) => (wrap_int (intSize a) i64, Some (NumError "Atoi" num e))
    | (i64, err) => (wrap_int (intSize a) i64, err)
    end.

End strconv.

(* ================================================================= *)
(** ** Package time: [time.Unix] and [Time.Unix] *)

Module time.

(** [time.Time]: the wall and ext words.  The location pointer is [Local]
    in every value the program builds and is left out. *)
Record Time := { wall : Z; ext : Z }.

Definition unixToInternal : Z :=
  (1969 * 365 + 1969 / 4 - 1969 / 100 + 1969 / 400) * 86400.

Definition wallToInternal : Z :=
  (1884 * 365 + 1884 / 4 - 1884 / 100 + 1884 / 400) * 86400.

(** [time.Unix(sec, nsec)]; [/] on Go integers truncates ([Z.quot]). *)
Definition Unix (sec nsec : Z) : Time :=
  let '(sec, nsec) :=
    if (nsec <? 0) || (nsec >=? 1000000000) then
      let n := Z.quot nsec 1000000000 in
      let sec := wrap_int 64 (sec + n) in
      let nsec := wrap_int 64 (nsec - n * 1000000000) in
      if nsec <? 0 then (wrap_int 64 (sec - 1), wrap_int 64 (nsec + 1000000000))
      else (sec, nsec)
    else (sec, nsec) in
  {| wall := wrap_uint 64 (wrap_int 32 nsec);
     ext := wrap_int 64 (sec + unixToInternal) |}.

(** [t.sec()]: seconds since year 1; the top bit of [wall] is
    [hasMonotonic]. *)
Definition sec (t : Time) : Z :=
  if Z.testbit (wall t) 63 then
    wrap_int 64 (wallToInternal + Z.shiftr (wrap_uint 64 (Z.shiftl (wall t) 1)) 31)
  else ext t.

(** [t.Unix()]: the instant as seconds since the Unix epoch. *)
Definition Time_Unix (t : Time) : Z := wrap_int 64 (sec t - unixToInternal).

(** [t.Nanosecond()] *)
Definition Time_Nanosecond (t : Time) : Z := Z.land (wall t) (2 ^ 30 - 1).

End time.

(* ================================================================= *)
(** ** The timestamp codec *)

Record caTime := { Time : time.Time }.

(** [func (m *caTime) UnmarshalJSON(b []byte) error]: the receiver after
    the call, and the error. *)
Definition UnmarshalJSON (a : GOARCH) (m : caTime) (b : string) : caTime * option error :=
  let s := b in
  let s := strings.TrimLeft s (String dquote EmptyString) in
  let s := strings.TrimRight s (String dquote EmptyString) in
  match strconv.Atoi a s with
  | (_, Some err) => (m, Some err)
  | (i, None) => ({| Time := time.Unix (wrap_int 64 i) 0 |}, None)
  end.

(* ================================================================= *)
(** ** The wire structures of the vault API *)

(** [caLogonResponse]: all three fields are exported. *)
Record caLogonResponse := {
  CyberArkLogonResult : string;
  logon_ErrorCode : string;
  logon_ErrorMessage : string }.

Record caLogonRequest := {
  Username : string;
  Password : string;
  UseRadiusAuthentication : bool;
  ConnectionNumber : Z }.

Record caAccountProperties := {
  Address : string;
  Safe : string;
  Name : string;
  LastUsedDate : caTime;
  LastUsedBy : string;
  prop_Username : string }.

Record caIncomingRequest := {
  RequestID : string;
  RequestorUserName : string;
  UserReason : string;
  Operation : string;
  AccessFrom : caTime;
  AccessTo : caTime;
  incoming_Properties : caAccountProperties }.

Record caIncomingRequestsResponse := {
  IncomingRequests_ : list caIncomingRequest;
  Total : Z }.

Record caConfirmRequest := { Reason : string }.

Record caConfirmResponse := {
  confirm_ErrorCode : string;
  confirm_ErrorMessage : string }.

(** [caMyRequest]; [AccountDetails.AccountID] and
    [AccountDetails.Properties.Name] are flattened. *)
Record caMyRequest := {
  Status : Z;
  StatusTitle : string;
  AccountID : string;
  my_Name : string }.

(** [caMyRequestsResponse]: [errorCode] and [errorMessage] are spelled
    with a lower-case initial in the source, hence unexported; only
    [MyRequests] is an exported field. *)
Record caMyRequestsResponse := {
  errorCode : string;
  errorMessage : string;
  MyRequests_ : list caMyRequest }.

(* ================================================================= *)
(** ** HTTP requests, responses and the outside world *)

(** [url.URL], as far as the program touches it. *)
Record URL := { Location : string; RawQuery : string }.

Record Request := {
  Method : string;
  req_URL : URL;
  Header : list (string * string);
  req_Body : option string }.

(** [http.Response]: the status code, and what [ioutil.ReadAll] gets out
    of the body (the bytes, and the message of a read error if any). *)
Record Response := {
  StatusCode : Z;
  Body : string * option string }.

(** [http.Client]: the answer to the [n]-th request the program sends
    (counting from 0), a response or the message of a transport error. *)
Definition Client := nat -> Request -> Response + string.

(** What the program does to the outside: the requests sent, in order,
    and what was printed on standard output and standard error. *)
Record World := {
  calls : list Request;
  stdout : list string;
  stderr : list string }.

(** [url.Values] *)
Definition Values := list (string * list string).

(** The standard library functions whose results the program only passes
    on.  encoding/json is given per structure type; it reads and writes
    only the exported fields of a structure, so for
    [caMyRequestsResponse] it is a function on the [MyRequests] field
    alone. *)
Class GoLib := {
  url_Parse : string -> URL * option string;
  url_ParseQuery : string -> Values;
  Values_Encode : Values -> string;
  strconv_Quote : string -> string;
  json_Marshal_caLogonRequest : caLogonRequest -> string * option string;
  json_Marshal_caConfirmRequest : caConfirmRequest -> string * option string;
  json_Unmarshal_caLogonResponse :
    string -> caLogonResponse -> caLogonResponse * option string;
  json_Unmarshal_caConfirmResponse :
    string -> caConfirmResponse -> caConfirmResponse * option string;
  json_Unmarshal_caIncomingRequestsResponse :
    string -> caIncomingRequestsResponse -> caIncomingRequestsResponse * option string;
  json_Unmarshal_exported_caMyRequestsResponse :
    string -> list caMyRequest -> list caMyRequest * option string }.

(** [caAPI]: the state of a session. *)
Record caAPI := {
  api_Client : Client;
  Base : string;
  LogonKey : string }.

Definition strconvErr_Error (e : strconvErr) : string :=
  match e with
  | ErrSyntax => "invalid syntax"
  | ErrRange => "value out of range"
  end.

Section Operations.

Context `{lib : GoLib}.

(** [err.Error()] *)
Definition Error (e : error) : string :=
  match e with
  | NumError f num err =>
      "strconv." ++ f ++ ": parsing " ++ strconv_Quote num ++ ": " ++ strconvErr_Error err
  | errorString msg => msg
  | libError _ msg => msg
  end.

(** [json.Unmarshal(body, &v)] at type [caMyRequestsResponse]. *)
Definition json_Unmarshal_caMyRequestsResponse (body : string) (v : caMyRequestsResponse)
  : caMyRequestsResponse * option string :=
  let '(l, err) := json_Unmarshal_exported_caMyRequestsResponse body (MyRequests_ v) in
  ({| errorCode := errorCode v; errorMessage := errorMessage v; MyRequests_ := l |}, err).

(** [http.NewRequest(method, url, body)] for the methods GET and POST. *)
Definition http_NewRequest (method url : string) (body : option string)
  : Request * option error :=
  match url_Parse url with
  | (u, Some e) =>
      ({| Method := method; req_URL := u; Header := []; req_Body := body |},
       Some (libError net_http e))
  | (u, None) =>
      ({| Method := method; req_URL := u; Header := []; req_Body := body |}, None)
  end.

(** [h.Add(key, value)] on a header. *)
Definition Header_Add (key value : string) (r : Request) : Request :=
  {| Method := Method r; req_URL := req_URL r;
     Header := (Header r ++ [(key, value)])%list; req_Body := req_Body r |}.

(** [h.Set(key, value)] on a header. *)
Definition Header_Set (key value : string) (r : Request) : Request :=
  {| Method := Method r; req_URL := req_URL r;
     Header := (filter (fun kv => negb (String.eqb (fst kv) key)) (Header r) ++ [(key, value)])%list;
     req_Body := req_Body r |}.

(** [v.Add(key, value)] on [url.Values]. *)
Fixpoint Values_Add (key value : string) (v : Values) : Values :=
  match v with
  | [] => [(key, [value])]
  | (k, vs) :: rest =>
      if String.eqb k key then (k, (vs ++ [value])%list) :: rest
      else (k, vs) :: Values_Add key value rest
  end.

(** [query := r.URL.Query(); query.Add(k1, v1); query.Add(k2, v2);
    r.URL.RawQuery = query.Encode()] *)
Definition setQuery (k1 v1 k2 v2 : string) (r : Request) : Request :=
  let query := url_ParseQuery (RawQuery (req_URL r)) in
  let query := Values_Add k1 v1 query in
  let query := Values_Add k2 v2 query in
  {| Method := Method r;
     req_URL := {| Location := Location (req_URL r); RawQuery := Values_Encode query |};
     Header := Header r; req_Body := req_Body r |}.

(** [api.Client.Do(req)]: the request is recorded and answered. *)
Definition Client_Do (api : caAPI) (req : Request) (w : World)
  : (Response + string) * World :=
  (api_Client api (List.length (calls w)) req,
   {| calls := (calls w ++ [req])%list; stdout := stdout w; stderr := stderr w |}).

(** [api.Client.Post(url, contentType, body)] *)
Definition Client_Post (api : caAPI) (url contentType body : string) (w : World)
  : (Response + string) * World :=
  match http_NewRequest "POST" url (Some body) with
  | (_, Some e) => (inr (Error e), w)
  | (req, None) => Client_Do api (Header_Set "Content-Type" contentType req) w
  end.

Definition zero_caLogonResponse : caLogonResponse :=
  {| CyberArkLogonResult := ""; logon_ErrorCode := ""; logon_ErrorMessage := "" |}.

Definition zero_caConfirmResponse : caConfirmResponse :=
  {| confirm_ErrorCode := ""; confirm_ErrorMessage := "" |}.

Definition zero_caIncomingRequestsResponse : caIncomingRequestsResponse :=
  {| IncomingRequests_ := []; Total := 0 |}.

Definition zero_caMyRequestsResponse : caMyRequestsResponse :=
  {| errorCode := ""; errorMessage := ""; MyRequests_ := [] |}.

Definition set_LogonKey (api : caAPI) (k : string) : caAPI :=
  {| api_Client := api_Client api; Base := Base api; LogonKey := k |}.

(** [func (api *caAPI) Login(username, password string) error] *)
Definition Login (api : caAPI) (username password : string) (w : World)
  : caAPI * World * option error :=
  let url := Base api ++
    "/PasswordVault/WebServices/auth/Cyberark/CyberArkAuthenticationService.svc/Logon" in
  let p := {| Username := username; Password := password;
              UseRadiusAuthentication := false; ConnectionNumber := 1 |} in
  match json_Marshal_caLogonRequest p with
  | (_, Some err) =>
      (api, w, Some (errorString ("unable to unmarshal login request: " ++ err)))
  | (b, None) =>
      match Client_Post api url "application/json" b w with
      | (inr err, w) =>
          (api, w, Some (errorString
             ("unable to create a POST request to '" ++ url ++ "': " ++ err)))
      | (inl httpResponse, w) =>
          match Body httpResponse with
          | (_, Some _) => (api, w, Some (errorString "whoops"))
          | (body, None) =>
              let logonResult := zero_caLogonResponse in
              match json_Unmarshal_caLogonResponse body logonResult with
              | (_, Some err) => (api, w, Some (libError encoding_json err))
              | (logonResult, None) =>
                  if negb (String.eqb (logon_ErrorCode logonResult) "") then
                    (api, w, Some (errorString
                       (logon_ErrorCode logonResult ++ " (" ++
                        logon_ErrorMessage logonResult ++ ")")))
                  else
                    (set_LogonKey api (CyberArkLogonResult logonResult), w, None)
              end
          end
      end
  end.

(** [func (api *caAPI) Logout() error] *)
Definition Logout (api : caAPI) (w : World) : caAPI * World * option error :=
  if String.eqb (LogonKey api) "" then
    (api, w, Some (errorString "no logon key exists - unable to logout"))
  else
    let logoff := Base api ++
      "/PasswordVault/WebServices/auth/Cyberark/CyberArkAuthenticationService.svc/Logoff" in
    match http_NewRequest "POST" logoff None with
    | (_, Some err) => (api, w, Some err)
    | (req, None) =>
        let req := Header_Add "Authorization" (LogonKey api) req in
        match Client_Do api req w with
        | (inr err, w) => (api, w, Some (libError net_http err))
        | (inl _, w) => (api, w, None)
        end
    end.

(** [func (api *caAPI) IncomingRequests() (caIncomingRequestsResponse, error)] *)
Definition IncomingRequests (api : caAPI) (w : World)
  : caIncomingRequestsResponse * caAPI * World * option error :=
  let response := zero_caIncomingRequestsResponse in
  if String.eqb (LogonKey api) "" then
    (response, api, w, Some (errorString "no logon key exists"))
  else
    let url := Base api ++ "/PasswordVault/API/IncomingRequests" in
    match http_NewRequest "GET" url None with
    | (_, Some err) => (response, api, w, Some err)
    | (httpReq, None) =>
        let httpReq := Header_Add "Authorization" (LogonKey api) httpReq in
        let httpReq := setQuery "onlywaiting" "true" "expired" "false" httpReq in
        match Client_Do api httpReq w with
        | (inr err, w) => (response, api, w, Some (libError net_http err))
        | (inl httpResponse, w) =>
            match Body httpResponse with
            | (_, Some err) => (response, api, w, Some (libError io_ioutil err))
            | (bytes, None) =>
                match json_Unmarshal_caIncomingRequestsResponse bytes response with
                | (response, Some err) => (response, api, w, Some (libError encoding_json err))
                | (response, None) => (response, api, w, None)
                end
            end
        end
    end.

(** [func (api *caAPI) ConfirmRequest(r caIncomingRequest, reason string) error] *)
Definition ConfirmRequest (api : caAPI) (r : caIncomingRequest) (reason : string) (w : World)
  : caAPI * World * option error :=
  let url := Base api ++ "/PasswordVault/API/IncomingRequests/" ++ RequestID r ++ "/Confirm" in
  let payload := {| Reason := reason |} in
  match json_Marshal_caConfirmRequest payload with
  | (_, Some err) =>
      (api, w, Some (errorString ("unable to unmarshal confirm request: " ++ err)))
  | (b, None) =>
      match http_NewRequest "POST" url (Some b) with
      | (_, Some err) => (api, w, Some err)
      | (httpReq, None) =>
          let httpReq := Header_Set "Authorization" (LogonKey api) httpReq in
          let httpReq := Header_Set "Content-Type" "application/json" httpReq in
          match Client_Do api httpReq w with
          | (inr err, w) => (api, w, Some (libError net_http err))
          | (inl httpResp, w) =>
              if StatusCode httpResp =? 200 then (api, w, None)
              else
                match Body httpResp with
                | (_, Some err) => (api, w, Some (libError io_ioutil err))
                | (respBody, None) =>
                    let confirmResponse := zero_caConfirmResponse in
                    match json_Unmarshal_caConfirmResponse respBody confirmResponse with
                    | (_, Some err) => (api, w, Some (libError encoding_json err))
                    | (confirmResponse, None) =>
                        if negb (String.eqb (confirm_ErrorCode confirmResponse) "") then
                          (api, w, Some (errorString
                             (confirm_ErrorCode confirmResponse ++ " (" ++
                              confirm_ErrorMessage confirmResponse ++ ")")))
                        else (api, w, None)
                    end
                end
          end
      end
  end.

(** [func (api *caAPI) MyRequests() (caMyRequestsResponse, error)] *)
Definition MyRequests (api : caAPI) (w : World)
  : caMyRequestsResponse * caAPI * World * option error :=
  let url := Base api ++ "/PasswordVault/API/MyRequests" in
  match http_NewRequest "GET" url None with
  | (_, Some err) => (zero_caMyRequestsResponse, api, w, Some err)
  | (httpReq, None) =>
      let httpReq := Header_Set "Authorization" (LogonKey api) httpReq in
      let httpReq := setQuery "onlywaiting" "false" "expired" "false" httpReq in
      match Client_Do api httpReq w with
      | (inr err, w) => (zero_caMyRequestsResponse, api, w, Some (libError net_http err))
      | (inl httpResponse, w) =>
          match Body httpResponse with
          | (_, Some err) => (zero_caMyRequestsResponse, api, w, Some (libError io_ioutil err))
          | (respBody, None) =>
              let myReqs := zero_caMyRequestsResponse in
              match json_Unmarshal_caMyRequestsResponse respBody myReqs with
              | (_, Some err) =>
                  (zero_caMyRequestsResponse, api, w, Some (libError encoding_json err))
              | (myReqs, None) =>
                  if negb (String.eqb (errorCode myReqs) "") then
                    (zero_caMyRequestsResponse, api, w,
                     Some (errorString (errorCode myReqs ++ " (" ++ errorMessage myReqs ++ ")")))
                  else (myReqs, api, w, None)
              end
          end
      end
  end.

(** [func (api *caAPI) GetPassword(req caMyRequest) (string, error)] *)
Definition GetPassword (api : caAPI) (req : caMyRequest) (w : World)
  : string * caAPI * World * option error :=
  let accID := AccountID req in
  let url := Base api ++ "/PasswordVault/WebServices/PIMServices.svc/Accounts/" ++
             accID ++ "/Credentials" in
  match http_NewRequest "GET" url None with
  | (_, Some err) => ("", api, w, Some err)
  | (httpReq, None) =>
      let httpReq := Header_Set "Authorization" (LogonKey api) httpReq in
      match Client_Do api httpReq w with
      | (inr err, w) => ("", api, w, Some (libError net_http err))
      | (inl httpResponse, w) =>
          match Body httpResponse with
          | (_, Some err) => ("", api, w, Some (libError io_ioutil err))
          | (bytes, None) => (bytes, api, w, None)
          end
      end
  end.

(* ----------------------------------------------------------------- *)
(** *** main.go: batch retrieval *)

(** [fmt.Println(s)] and [fmt.Printf] with the text already formatted. *)
Definition Print (s : string) (w : World) : World :=
  {| calls := calls w; stdout := (stdout w ++ [s])%list; stderr := stderr w |}.

(** The [for _, r := range reqs.MyRequests] loop of [retrieve]. *)
Fixpoint retrieve_loop (ca : caAPI) (reqs : list caMyRequest) (w : World) : caAPI * World :=
  match reqs with
  | [] => (ca, w)
  | r :: rest =>
      match GetPassword ca r w with
      | (_, ca, w, Some _) =>
          (* what *)
          retrieve_loop ca rest w
      | (passwd, ca, w, None) =>
          retrieve_loop ca rest (Print (my_Name r ++ " = " ++ passwd ++ newline) w)
      end
  end.

(** [func retrieve(ca *caAPI)]: the world afterwards, and the exit status
    if the function ends the process with [os.Exit]. *)
Definition retrieve (ca : caAPI) (w : World) : caAPI * World * option Z :=
  match MyRequests ca w with
  | (_, ca, w, Some err) => (ca, Print (Error err ++ newline) w, Some 1)
  | (reqs, ca, w, None) =>
      if Z.of_nat (List.length (MyRequests_ reqs)) =? 0 then
        (ca, Print ("There are no requests." ++ newline) w, Some 0)
      else
        let '(ca, w) := retrieve_loop ca (MyRequests_ reqs) w in
        (ca, w, None)
  end.

End Operations.

(* ================================================================= *)
(** ** main.go: the commands *)

(** What the commands take from the standard library besides [GoLib]:
    [strings.Map(unicode.ToUpper, s)], which [strings.ToUpper] falls back
    to on a string that is not ASCII, and [Time.String], which [%v]
    prints a [caTime] with. *)
Class MainLib := {
  unicode_ToUpper : string -> string;
  Time_String : time.Time -> string }.

(** The command line, once [flag.Parse] has read it. *)
Record Flags := {
  flagBaseURL : string;
  flagUsername : string;
  flagPassword : string;
  flagAllowedCorpKeys : string;
  flagConfirmReason : string;
  flagOperation : string }.

(** Writing to [os.Stderr]. *)
Definition Eprint (s : string) (w : World) : World :=
  {| calls := calls w; stdout := stdout w; stderr := (stderr w ++ [s])%list |}.

Section Commands.

Context `{lib : GoLib} `{mlib : MainLib}.

(** [strings.ToUpper(s)] *)
Definition strings_ToUpper (s : string) : string :=
  if strings.isASCII s then strings.upperASCII s else unicode_ToUpper s.

(** The [for _, a := range incomingRequests.IncomingRequests] loop of
    [listIncoming]. *)
Fixpoint listIncoming_loop (reqs : list caIncomingRequest) (w : World) : World :=
  match reqs with
  | [] => w
  | a :: rest =>
      listIncoming_loop rest
        (Print ("Incoming: " ++ RequestorUserName a ++ ", '" ++
                Name (incoming_Properties a) ++ "' ('" ++ UserReason a ++ "')" ++ newline) w)
  end.

(** [func listIncoming(api *caAPI)] *)
Definition listIncoming (api : caAPI) (w : World) : caAPI * World * option Z :=
  match IncomingRequests api w with
  | (_, api, w, Some err) => (api, Print (Error err ++ newline) w, Some 1)
  | (incomingRequests, api, w, None) =>
      if Z.of_nat (List.length (IncomingRequests_ incomingRequests)) =? 0 then
        (api, Print ("There are no incoming requests." ++ newline) w, None)
      else
        (api, listIncoming_loop (IncomingRequests_ incomingRequests) w, None)
  end.

(** The map [users] of [approveIncoming] only ever holds [true]: it is
    modelled by the list of its keys.  [users[u] = true]: *)
Definition users_insert (u : string) (users : list string) : list string := u :: users.

(** [_, ok := users[requestor]] *)
Definition users_ok (users : list string) (requestor : string) : bool :=
  existsb (String.eqb requestor) users.

(** The [for _, u := range strings.Split(corpkeys, ",")] loop. *)
Definition make_users (corpkeys : string) : list string :=
  fold_left
    (fun users u =>
       let u := strings.Trim u " " in
       let u := strings_ToUpper u in
       users_insert u users)
    (strings.Split corpkeys ",") [].

(** The [for _, a := range incomingRequests.IncomingRequests] loop of
    [approveIncoming]; [reason] is [*flagConfirmReason]. *)
Fixpoint approveIncoming_loop (reason : string) (users : list string) (api : caAPI)
    (reqs : list caIncomingRequest) (w : World) : caAPI * World :=
  match reqs with
  | [] => (api, w)
  | a :: rest =>
      let requestor := strings_ToUpper (RequestorUserName a) in
      if users_ok users requestor then
        let w := Print ("Confirming: " ++ requestor ++ ", '" ++
                        Name (incoming_Properties a) ++ "' ('" ++ UserReason a ++ "')... ") w in
        match ConfirmRequest api a reason w with
        | (api, w, Some err) =>
            let w := Print ("failed!" ++ newline) w in
            let w := Eprint ("Unable to confirm request: " ++ Error err ++ newline) w in
            approveIncoming_loop reason users api rest w
        | (api, w, None) =>
            approveIncoming_loop reason users api rest (Print ("ok!" ++ newline) w)
        end
      else
        approveIncoming_loop reason users api rest
          (Print ("Ignoring: " ++ requestor ++ ", " ++ String dquote (UserReason a) ++
                  String dquote " from " ++ Time_String (Time (AccessFrom a)) ++
                  " to " ++ Time_String (Time (AccessTo a)) ++ newline) w)
  end.

(** [func approveIncoming(api *caAPI, allowedCorporateKeys string)] *)
Definition approveIncoming (reason : string) (api : caAPI) (allowedCorporateKeys : string)
    (w : World) : caAPI * World * option Z :=
  let corpkeys := strings.Trim allowedCorporateKeys " " in
  if String.eqb corpkeys "" then
    (api, Eprint ("No corporate keys specified using `-users'." ++ newline) w, Some 1)
  else
    let users := make_users corpkeys in
    match IncomingRequests api w with
    | (_, api, w, Some err) => (api, Print (Error err ++ newline) w, Some 1)
    | (incomingRequests, api, w, None) =>
        if Z.of_nat (List.length (IncomingRequests_ incomingRequests)) =? 0 then
          (api, Print ("There are no incoming requests." ++ newline) w, None)
        else
          let '(api, w) :=
            approveIncoming_loop reason users api (IncomingRequests_ incomingRequests) w in
          (api, w, None)
    end.

(** [func logout(api *caAPI)] *)
Definition logout (api : caAPI) (w : World) : caAPI * World :=
  match Logout api w with
  | (api, w, Some err) => (api, Eprint ("Unable to logout: " ++ Error err ++ newline) w)
  | (api, w, None) => (api, w)
  end.

(** [func main()], from after [flag.Parse()]: [client] is the HTTP client
    built on the transport, [readPassword] what
    [terminal.ReadPassword] returns if it is called (the bytes typed and
    the message of an error, if any).  The result is the world at the end
    and the exit status of the process.  [os.Exit] ends the process at
    once: the deferred [logout] runs only when [main] returns. *)
Definition main (flags : Flags) (client : Client) (readPassword : string * option string)
    (w : World) : World * Z :=
  if String.eqb (flagUsername flags) "" then
    (Eprint ("No username given with -username" ++ newline) w, 1)
  else
    let '(password, w, exit) :=
      if negb (String.eqb (flagPassword flags) "") then (flagPassword flags, w, None)
      else
        let w := Print (flagUsername flags ++ "'s Password: ") w in
        let '(pwd, err) := readPassword in
        let password := pwd in
        match err with
        | Some e => (password, Print (e ++ newline) w, Some 1)
        | None => (password, Print newline w, None)
        end in
    match exit with
    | Some code => (w, code)
    | None =>
        let api := {| api_Client := client; Base := flagBaseURL flags; LogonKey := "" |} in
        match Login api (flagUsername flags) password w with
        | (_, w, Some err) => (Print ("Could not login: " ++ Error err ++ newline) w, 1)
        | (api, w, None) =>
            let '(api, w, exit) :=
              if String.eqb (flagOperation flags) "list" then listIncoming api w
              else if String.eqb (flagOperation flags) "approve" then
                approveIncoming (flagConfirmReason flags) api (flagAllowedCorpKeys flags) w
              else if String.eqb (flagOperation flags) "retrieve" then retrieve api w
              else (api, w, None) in
            match exit with
            | Some code => (w, code)
            | None => let '(_, w) := logout api w in (w, 0)
            end
        end
    end.

End Commands.

(* ================================================================= *)
(** ** Notions of the specification *)

(** A decimal digit. *)
Definition isDigit (c : ascii) : bool := (48 <=? byte_val c) && (byte_val c <=? 57).

Fixpoint allDigits (s : string) : bool :=
  match s with
  | EmptyString => true
  | String c rest => isDigit c && allDigits rest
  end.

(** The number a sequence of decimal digits denotes, after the digits
    already read, which denote [acc]. *)
Fixpoint digitsVal (s : string) (acc : Z) : Z :=
  match s with
  | EmptyString => acc
  | String c rest => digitsVal rest (acc * 10 + (byte_val c - 48))
  end.

(** A base-10 integer: an optional sign, then one or more decimal
    digits. *)
Definition isBase10Integer (s : string) : bool :=
  match s with
  | EmptyString => false
  | String c rest =>
      if Ascii.eqb c "-" || Ascii.eqb c "+" then
        negb (String.eqb rest "") && allDigits rest
      else allDigits s
  end.

(** The integer a base-10 integer denotes. *)
Definition intVal (s : string) : Z :=
  match s with
  | EmptyString => 0
  | String c rest =>
      if Ascii.eqb c "-" then - digitsVal rest 0
      else if Ascii.eqb c "+" then digitsVal rest 0
      else digitsVal s 0
  end.

(** The values of Go's [int]. *)
Definition inIntRange (a : GOARCH) (T : Z) : Prop :=
  - 2 ^ (intSize a - 1) <= T < 2 ^ (intSize a - 1).

Definition inIntRangeb (a : GOARCH) (T : Z) : bool :=
  (- 2 ^ (intSize a - 1) <=? T) && (T <? 2 ^ (intSize a - 1)).

(** The bare JSON form of the integer [T]: its decimal numeral, with a
    minus sign if negative and no leading zero. *)
Definition bareForm (T : Z) : string := NilZero.string_of_int (Z.to_int T).

(** The quoted JSON form of the integer [T]. *)
Definition quotedForm (T : Z) : string :=
  String dquote (bareForm T ++ String dquote EmptyString).

(** What is left of a token once the quotes are stripped. *)
Definition stripQuotes (b : string) : string :=
  strings.TrimRight (strings.TrimLeft b (String dquote EmptyString))
                    (String dquote EmptyString).

(** The token has a fractional part or an exponent. *)
Fixpoint anyByte (p : ascii -> bool) (s : string) : bool :=
  match s with
  | EmptyString => false
  | String c rest => p c || anyByte p rest
  end.

Definition isFractionOrExponentMark (c : ascii) : bool :=
  Ascii.eqb c "." || Ascii.eqb c "e" || Ascii.eqb c "E".

Definition hasFractionOrExponent (b : string) : bool :=
  anyByte isFractionOrExponentMark b.

(** The Unix epoch second of a decoded timestamp. *)
Definition instant (m : caTime) : Z := time.Time_Unix (Time m).

(** The error conditions of the specification that the program builds
    with [fmt.Errorf]. *)
Definition NotAuthenticated_Logout : error :=
  errorString "no logon key exists - unable to logout".

Definition NotAuthenticated : error := errorString "no logon key exists".

(** [AuthenticationFailed{code, message}] and [RemoteError{code, message}]:
    the format [%s (%s)] applied to the code and the message. *)
Definition RemoteError (code message : string) : error :=
  errorString (code ++ " (" ++ message ++ ")").

Definition AuthenticationFailed (code message : string) : error :=
  errorString (code ++ " (" ++ message ++ ")").

Definition DecodeError (msg : string) : error := libError encoding_json msg.

(** The error of a body that could not be read to its end. *)
Definition ReadError (msg : string) : error := libError io_ioutil msg.

Definition TransportError (msg : string) : error := libError net_http msg.

Definition emptyWorld : World := {| calls := []; stdout := []; stderr := [] |}.

(* ================================================================= *)
(** ** A sample vault

    A concrete library and concrete servers, on which the operations can
    be run.  The sample decoders know a handful of response bodies and
    treat every other body as malformed. *)

Definition quoted (s : string) : string := String dquote (s ++ String dquote EmptyString).

Definition body_logon_ok : string :=
  "{" ++ quoted "CyberArkLogonResult" ++ ":" ++ quoted "AAEAAAD/////AQAAAAAAAAAMAgAAAF" ++ "}".

Definition body_logon_rejected : string :=
  "{" ++ quoted "ErrorCode" ++ ":" ++ quoted "ITATS004E" ++ "," ++
  quoted "ErrorMessage" ++ ":" ++ quoted "Authentication failure for User [alice]." ++ "}".

Definition body_confirm_rejected : string :=
  "{" ++ quoted "ErrorCode" ++ ":" ++ quoted "PASWS178E" ++ "," ++
  quoted "ErrorMessage" ++ ":" ++ quoted "Request was already confirmed." ++ "}".

Definition mq_admin : caMyRequest :=
  {| Status := 1; StatusTitle := "Confirmed"; AccountID := "12_4"; my_Name := "mq-admin" |}.

Definition sample_requests : list caMyRequest :=
  [ {| Status := 1; StatusTitle := "Confirmed"; AccountID := "12_3"; my_Name := "db-root" |};
    mq_admin;
    {| Status := 1; StatusTitle := "Confirmed"; AccountID := "12_5"; my_Name := "web-admin" |} ].

Definition json_caMyRequest (r : caMyRequest) : string :=
  "{" ++ quoted "Status" ++ ":1," ++ quoted "StatusTitle" ++ ":" ++ quoted (StatusTitle r) ++ "," ++
  quoted "AccountDetails" ++ ":{" ++ quoted "AccountID" ++ ":" ++ quoted (AccountID r) ++ "," ++
  quoted "Properties" ++ ":{" ++ quoted "Name" ++ ":" ++ quoted (my_Name r) ++ "}}}".

Definition body_my_requests : string :=
  "{" ++ quoted "MyRequests" ++ ":[" ++
  String.concat "," (map json_caMyRequest sample_requests) ++ "]}".

(** A response of status 200 whose envelope carries a server error. *)
Definition body_my_requests_error : string :=
  "{" ++ quoted "ErrorCode" ++ ":" ++ quoted "PASWS013E" ++ "," ++
  quoted "ErrorMessage" ++ ":" ++ quoted "Session token is missing, invalid or expired." ++ "," ++
  quoted "MyRequests" ++ ":[]}".

Definition malformed : option string := Some "invalid character".

(** Insertion into a list of pairs sorted by key. *)
Fixpoint insert_by_key (kv : string * list string) (l : Values) : Values :=
  match l with
  | [] => [kv]
  | kv' :: rest =>
      if String.leb (fst kv) (fst kv') then kv :: l else kv' :: insert_by_key kv rest
  end.

Definition sampleLib : GoLib := {|
  url_Parse := fun u => ({| Location := u; RawQuery := "" |}, None);
  url_ParseQuery := fun _ => [];
  Values_Encode := fun v =>
    String.concat "&"
      (flat_map (fun kv => map (fun x => fst kv ++ "=" ++ x) (snd kv))
                (fold_right insert_by_key [] v));
  strconv_Quote := quoted;
  json_Marshal_caLogonRequest := fun p =>
    ("{" ++ quoted "username" ++ ":" ++ quoted (Username p) ++ "," ++
     quoted "password" ++ ":" ++ quoted (Password p) ++ "," ++
     quoted "useRadiusAuthentication" ++ ":false," ++
     quoted "connectionNumber" ++ ":1}", None);
  json_Marshal_caConfirmRequest := fun p =>
    ("{" ++ quoted "Reason" ++ ":" ++ quoted (Reason p) ++ "}", None);
  json_Unmarshal_caLogonResponse := fun body v =>
    if String.eqb body body_logon_ok then
      ({| CyberArkLogonResult := "AAEAAAD/////AQAAAAAAAAAMAgAAAF";
          logon_ErrorCode := logon_ErrorCode v;
          logon_ErrorMessage := logon_ErrorMessage v |}, None)
    else if String.eqb body body_logon_rejected then
      ({| CyberArkLogonResult := CyberArkLogonResult v;
          logon_ErrorCode := "ITATS004E";
          logon_ErrorMessage := "Authentication failure for User [alice]." |}, None)
    else if String.eqb body "{}" then (v, None)
    else (v, malformed);
  json_Unmarshal_caConfirmResponse := fun body v =>
    if String.eqb body body_confirm_rejected then
      ({| confirm_ErrorCode := "PASWS178E";
          confirm_ErrorMessage := "Request was already confirmed." |}, None)
    else if String.eqb body "{}" then (v, None)
    else (v, malformed);
  json_Unmarshal_caIncomingRequestsResponse := fun body v =>
    if String.eqb body "{}" then (v, None) else (v, malformed);
  json_Unmarshal_exported_caMyRequestsResponse := fun body l =>
    if String.eqb body body_my_requests then (sample_requests, None)
    else if String.eqb body body_my_requests_error then ([], None)
    else if String.eqb body "{}" then (l, None)
    else (l, malformed)
|}.

(** A server that answers the [n]-th request with the [n]-th entry. *)
Definition serve (answers : list (Response + string)) : Client :=
  fun n _ => nth n answers (inr "connection refused").

Definition ok (body : string) : Response + string :=
  inl {| StatusCode := 200; Body := (body, None) |}.

Definition status (code : Z) (body : string) : Response + string :=
  inl {| StatusCode := code; Body := (body, None) |}.

Definition session (answers : list (Response + string)) (key : string) : caAPI :=
  {| api_Client := serve answers; Base := "https://pwv.example"; LogonKey := key |}.

Definition sample_incoming : caIncomingRequest :=
  {| RequestID := "7_15"; RequestorUserName := "bob"; UserReason := "deploy";
     Operation := "Connect";
     AccessFrom := {| Time := time.Unix 1543388400 0 |};
     AccessTo := {| Time := time.Unix 1543600800 0 |};
     incoming_Properties :=
       {| Address := "10.0.0.7"; Safe := "prod"; Name := "db-root";
          LastUsedDate := {| Time := time.Unix 1543404976 0 |};
          LastUsedBy := "carol"; prop_Username := "root" |} |}.

(** [n] double quotes in a row. *)
Fixpoint quotes (n : nat) : string :=
  match n with
  | O => EmptyString
  | S n' => String dquote (quotes n')
  end.

(** The last byte of a string. *)
Fixpoint lastByte (s : string) : option ascii :=
  match s with
  | EmptyString => None
  | String c EmptyString => Some c
  | String _ rest => lastByte rest
  end.

Definition firstByte (s : string) : option ascii :=
  match s with
  | EmptyString => None
  | String c _ => Some c
  end.

(** From [w] to [w'] nothing was printed and at most one request was
    sent. *)
Definition atMostOneRequest (w w' : World) : Prop :=
  stdout w' = stdout w /\ stderr w' = stderr w /\
  (calls w' = calls w \/ exists req, calls w' = (calls w ++ [req])%list).

(** The world [w] after the request [req] has been sent. *)
Definition sent (req : Request) (w : World) : World :=
  {| calls := (calls w ++ [req])%list; stdout := stdout w; stderr := stderr w |}.

(** The line [retrieve] prints for a request and its credential. *)
Definition credentialLine (r : caMyRequest) (passwd : string) : string :=
  my_Name r ++ " = " ++ passwd ++ newline.

(** The lines printed for a batch whose fetches are answered with the
    bodies [body n], [body (n+1)], ... *)
Fixpoint credentialLines (body : nat -> string) (n : nat) (reqs : list caMyRequest)
  : list string :=
  match reqs with
  | [] => []
  | r :: rest => credentialLine r (body n) :: credentialLines body (S n) rest
  end.

(** The line [listIncoming] prints for an incoming request. *)
Definition incomingLine (a : caIncomingRequest) : string :=
  "Incoming: " ++ RequestorUserName a ++ ", '" ++ Name (incoming_Properties a) ++
  "' ('" ++ UserReason a ++ "')" ++ newline.

Fixpoint allSpaces (s : string) : bool :=
  match s with
  | EmptyString => true
  | String c rest => Ascii.eqb c " " && allSpaces rest
  end.

Definition isComma (c : ascii) : bool := Ascii.eqb c ",".

Section RequestsSent.

Context `{lib : GoLib}.

(** The request [ConfirmRequest] sends for the incoming request [a]. *)
Definition confirmRequestOf (api : caAPI) (reason : string) (a : caIncomingRequest) : Request :=
  {| Method := "POST";
     req_URL := fst (url_Parse (Base api ++ "/PasswordVault/API/IncomingRequests/" ++
                                RequestID a ++ "/Confirm"));
     Header := [("Authorization", LogonKey api); ("Content-Type", "application/json")];
     req_Body := Some (fst (json_Marshal_caConfirmRequest {| Reason := reason |})) |}.

(** The request [MyRequests] sends. *)
Definition myRequestsRequest (api : caAPI) : Request :=
  setQuery "onlywaiting" "false" "expired" "false"
    (Header_Set "Authorization" (LogonKey api)
       {| Method := "GET";
          req_URL := fst (url_Parse (Base api ++ "/PasswordVault/API/MyRequests"));
          Header := []; req_Body := None |}).

End RequestsSent.

Definition sampleMainLib : MainLib := {|
  unicode_ToUpper := fun s => s;
  Time_String := fun t => "@" ++ bareForm (time.Time_Unix t) |}.


Definition incoming_from (id requestor : string) : caIncomingRequest :=
  {| RequestID := id; RequestorUserName := requestor; UserReason := "deploy";
     Operation := "Connect";
     AccessFrom := {| Time := time.Unix 1543388400 0 |};
     AccessTo := {| Time := time.Unix 1543600800 0 |};
     incoming_Properties :=
       {| Address := "10.0.0.7"; Safe := "prod"; Name := "db-root";
          LastUsedDate := {| Time := time.Unix 1543404976 0 |};
          LastUsedBy := "carol"; prop_Username := "root" |} |}.

(** A server that answers the [n]-th request with the status [code n]
    and the body [body n]. *)
Definition answering (code : nat -> Z) (body : nat -> string) : Client :=
  fun n _ => inl {| StatusCode := code n; Body := (body n, None) |}.

Definition json_caIncomingRequest (a : caIncomingRequest) : string :=
  "{" ++ quoted "RequestID" ++ ":" ++ quoted (RequestID a) ++ "," ++
  quoted "RequestorUserName" ++ ":" ++ quoted (RequestorUserName a) ++ "," ++
  quoted "UserReason" ++ ":" ++ quoted (UserReason a) ++ "," ++
  quoted "Operation" ++ ":" ++ quoted (Operation a) ++ "," ++
  quoted "AccessFrom" ++ ":" ++ bareForm (instant (AccessFrom a)) ++ "," ++
  quoted "AccessTo" ++ ":" ++ quotedForm (instant (AccessTo a)) ++ "," ++
  quoted "AccountDetails" ++ ":{" ++ quoted "Properties" ++ ":{" ++
  quoted "Address" ++ ":" ++ quoted (Address (incoming_Properties a)) ++ "," ++
  quoted "Safe" ++ ":" ++ quoted (Safe (incoming_Properties a)) ++ "," ++
  quoted "Name" ++ ":" ++ quoted (Name (incoming_Properties a)) ++ "," ++
  quoted "LastUsedDate" ++ ":" ++
    bareForm (instant (LastUsedDate (incoming_Properties a))) ++ "," ++
  quoted "LastUsedBy" ++ ":" ++ quoted (LastUsedBy (incoming_Properties a)) ++ "," ++
  quoted "Username" ++ ":" ++ quoted (prop_Username (incoming_Properties a)) ++ "}}}".

Definition sample_incoming_requests : list caIncomingRequest :=
  [incoming_from "7_15" "Bob"; incoming_from "7_16" "mallory"; incoming_from "7_17" "carol"].

Definition body_incoming_requests : string :=
  "{" ++ quoted "IncomingRequests" ++ ":[" ++
  String.concat "," (map json_caIncomingRequest sample_incoming_requests) ++ "]," ++
  quoted "Total" ++ ":3}".

(** The sample library, with a decoder that also knows the sample listing
    of incoming requests. *)
Definition sampleLib2 : GoLib := {|
  url_Parse := @url_Parse sampleLib;
  url_ParseQuery := @url_ParseQuery sampleLib;
  Values_Encode := @Values_Encode sampleLib;
  strconv_Quote := @strconv_Quote sampleLib;
  json_Marshal_caLogonRequest := @json_Marshal_caLogonRequest sampleLib;
  json_Marshal_caConfirmRequest := @json_Marshal_caConfirmRequest sampleLib;
  json_Unmarshal_caLogonResponse := @json_Unmarshal_caLogonResponse sampleLib;
  json_Unmarshal_caConfirmResponse := @json_Unmarshal_caConfirmResponse sampleLib;
  json_Unmarshal_caIncomingRequestsResponse := fun body v =>
    if String.eqb body body_incoming_requests then
      ({| IncomingRequests_ := sample_incoming_requests; Total := 3 |}, None)
    else @json_Unmarshal_caIncomingRequestsResponse sampleLib body v;
  json_Unmarshal_exported_caMyRequestsResponse :=
    @json_Unmarshal_exported_caMyRequestsResponse sampleLib
|}.

(* ================================================================= *)
(** ** Machine integers and bytes *)

Lemma byte_val_range (c : ascii) : 0 <= byte_val c < 256.
Proof.
  unfold byte_val. pose proof (N_ascii_bounded c). lia.
Qed.

Lemma wrap_uint_small (bits z : Z) :
  0 <= z < 2 ^ bits -> wrap_uint bits z = z.
Proof.
  intros Hz. unfold wrap_uint. apply Z.mod_small. exact Hz.
Qed.

Lemma wrap_int_small (bits z : Z) :
  0 < bits -> - 2 ^ (bits - 1) <= z < 2 ^ (bits - 1) -> wrap_int bits z = z.
Proof.
  intros Hb Hz. unfold wrap_int.
  assert (Hp : 2 ^ bits = 2 * 2 ^ (bits - 1)).
  { replace bits with (Z.succ (bits - 1)) at 1 by lia.
    rewrite Z.pow_succ_r by lia. reflexivity. }
  rewrite Z.mod_small by lia. lia.
Qed.

Lemma wrap_int_intSize (a : GOARCH) (z : Z) :
  inIntRange a z -> wrap_int (intSize a) z = z.
Proof.
  intros Hz. apply wrap_int_small; [destruct a; reflexivity | exact Hz].
Qed.

Lemma inIntRange_64 (a : GOARCH) (z : Z) :
  inIntRange a z -> - 2 ^ 63 <= z < 2 ^ 63.
Proof.
  unfold inIntRange. destruct a; simpl intSize; lia.
Qed.

Lemma inIntRangeb_spec (a : GOARCH) (z : Z) :
  inIntRangeb a z = true <-> inIntRange a z.
Proof.
  unfold inIntRangeb, inIntRange.
  rewrite andb_true_iff, Z.leb_le, Z.ltb_lt. tauto.
Qed.

(** The byte test of the fast path of [Atoi] accepts exactly the digits. *)
Lemma fast_digit_test (c : ascii) :
  (wrap_uint 8 (byte_val c - 48) >? 9) = negb (isDigit c).
Proof.
  pose proof (byte_val_range c) as Hc. unfold isDigit, wrap_uint.
  change (2 ^ 8) with 256.
  destruct (Z_lt_ge_dec (byte_val c) 48) as [Hlt | Hge].
  - replace ((byte_val c - 48) mod 256) with (byte_val c + 208).
    + destruct (48 <=? byte_val c) eqn:E; [apply Z.leb_le in E; lia |].
      simpl. apply Z.gtb_lt. lia.
    + apply Z.mod_unique with (q := -1); lia.
  - rewrite Z.mod_small by lia.
    destruct (48 <=? byte_val c) eqn:E; [| apply Z.leb_gt in E; lia].
    simpl. destruct (byte_val c <=? 57) eqn:E2; simpl.
    + apply Z.leb_le in E2. rewrite Z.gtb_ltb. apply Z.ltb_ge. lia.
    + apply Z.leb_gt in E2. apply Z.gtb_lt. lia.
Qed.

Lemma fast_digit_value (c : ascii) :
  isDigit c = true -> wrap_uint 8 (byte_val c - 48) = byte_val c - 48.
Proof.
  unfold isDigit. rewrite andb_true_iff, !Z.leb_le. intros [H1 H2].
  apply wrap_uint_small. change (2 ^ 8) with 256. lia.
Qed.

Lemma isDigit_range (c : ascii) :
  isDigit c = true -> 0 <= byte_val c - 48 <= 9.
Proof.
  unfold isDigit. rewrite andb_true_iff, !Z.leb_le. lia.
Qed.

(** The digit switch of [ParseUint] on a decimal digit, and on any other
    byte: no value, or the value of a letter, which base 10 rejects. *)
Lemma digitVal_digit (c : ascii) :
  isDigit c = true -> strconv.digitVal c = Some (byte_val c - 48).
Proof.
  unfold isDigit, strconv.digitVal. intros H. cbv zeta. rewrite H. reflexivity.
Qed.

Lemma digitVal_other (c : ascii) :
  isDigit c = false ->
  strconv.digitVal c = None \/ exists d, strconv.digitVal c = Some d /\ 10 <= d.
Proof.
  unfold isDigit, strconv.digitVal. intros H. cbv zeta. rewrite H.
  destruct ((97 <=? byte_val c) && (byte_val c <=? 122)) eqn:E1.
  - right. eexists. split; [reflexivity |].
    apply andb_true_iff in E1. rewrite !Z.leb_le in E1. lia.
  - destruct ((65 <=? byte_val c) && (byte_val c <=? 90)) eqn:E2.
    + right. eexists. split; [reflexivity |].
      apply andb_true_iff in E2. rewrite !Z.leb_le in E2. lia.
    + left. reflexivity.
Qed.

(* ================================================================= *)
(** ** Decimal digit sequences *)

Lemma len_String (c : ascii) (s : string) : len (String c s) = len s + 1.
Proof. unfold len. simpl String.length. lia. Qed.

Lemma len_nonneg (s : string) : 0 <= len s.
Proof. unfold len. lia. Qed.

Lemma digitsVal_ge (s : string) : forall n,
  allDigits s = true -> 0 <= n -> n <= digitsVal s n.
Proof.
  induction s as [| c rest IH]; intros n Hd Hn; simpl in *.
  - lia.
  - apply andb_true_iff in Hd. destruct Hd as [Hc Hr].
    pose proof (isDigit_range c Hc).
    specialize (IH (n * 10 + (byte_val c - 48)) Hr). lia.
Qed.

Lemma digitsVal_bound (s : string) : forall n,
  allDigits s = true -> 0 <= n -> digitsVal s n < (n + 1) * 10 ^ len s.
Proof.
  induction s as [| c rest IH]; intros n Hd Hn.
  - simpl. change (len EmptyString) with 0. lia.
  - simpl in Hd. apply andb_true_iff in Hd. destruct Hd as [Hc Hr].
    pose proof (isDigit_range c Hc) as Hrange.
    rewrite len_String, Z.pow_add_r by (pose proof (len_nonneg rest); lia).
    simpl digitsVal.
    specialize (IH (n * 10 + (byte_val c - 48)) Hr ltac:(lia)).
    assert (Hp : 0 < 10 ^ len rest) by (apply Z.pow_pos_nonneg; [lia | apply len_nonneg]).
    nia.
Qed.

(** *** The fast path of [Atoi] *)

Lemma Atoi_loop_digits (a : GOARCH) (s : string) : forall n,
  allDigits s = true -> 0 <= n -> digitsVal s n < 2 ^ (intSize a - 1) ->
  strconv.Atoi_loop a s n = Some (digitsVal s n).
Proof.
  induction s as [| c rest IH]; intros n Hd Hn Hb; simpl in *.
  - reflexivity.
  - apply andb_true_iff in Hd. destruct Hd as [Hc Hr].
    pose proof (isDigit_range c Hc) as Hrange.
    rewrite fast_digit_test, Hc. simpl negb. cbv iota.
    rewrite (fast_digit_value c Hc).
    pose proof (digitsVal_ge rest (n * 10 + (byte_val c - 48)) Hr ltac:(lia)) as Hge.
    rewrite wrap_int_intSize.
    + apply IH; [exact Hr | lia | exact Hb].
    + unfold inIntRange.
      assert (0 < 2 ^ (intSize a - 1)) by (destruct a; reflexivity). lia.
Qed.

Lemma Atoi_loop_other (a : GOARCH) (s : string) : forall n,
  allDigits s = false -> strconv.Atoi_loop a s n = None.
Proof.
  induction s as [| c rest IH]; intros n Hd; simpl in *.
  - discriminate.
  - rewrite fast_digit_test. destruct (isDigit c); simpl in *.
    + apply IH. exact Hd.
    + reflexivity.
Qed.

(** *** The loop of [ParseUint] *)

Lemma ParseUint_loop_digits (s : string) (maxVal : Z) : forall n,
  allDigits s = true -> 0 <= n <= maxVal -> maxVal <= strconv.maxUint64 ->
  strconv.ParseUint_loop s n maxVal =
  if digitsVal s n <=? maxVal then (digitsVal s n, None) else (maxVal, Some ErrRange).
Proof.
  unfold strconv.maxUint64.
  induction s as [| c rest IH]; intros n Hd Hn Hmax; simpl in *.
  - destruct (n <=? maxVal) eqn:E; [reflexivity | apply Z.leb_gt in E; lia].
  - apply andb_true_iff in Hd. destruct Hd as [Hc Hr].
    pose proof (isDigit_range c Hc) as Hrange.
    rewrite (digitVal_digit c Hc).
    set (d := byte_val c - 48) in *.
    pose proof (digitsVal_ge rest (n * 10 + d) Hr ltac:(lia)) as Hge.
    destruct (d >=? 10) eqn:E10; [apply Z.geb_le in E10; lia |].
    change (strconv.maxUint64 / 10 + 1) with 1844674407370955162.
    destruct (n >=? 1844674407370955162) eqn:Ecut.
    + apply Z.geb_le in Ecut.
      destruct (digitsVal rest (n * 10 + d) <=? maxVal) eqn:E;
        [apply Z.leb_le in E; lia | reflexivity].
    + rewrite Z.geb_leb in Ecut. apply Z.leb_gt in Ecut.
      rewrite (wrap_uint_small 64 (n * 10)) by lia.
      destruct (Z_lt_ge_dec (n * 10 + d) (2 ^ 64)) as [Hfit | Hover].
      * rewrite (wrap_uint_small 64 (n * 10 + d)) by lia.
        destruct (n * 10 + d <? n * 10) eqn:E1; [apply Z.ltb_lt in E1; lia |].
        destruct (n * 10 + d >? maxVal) eqn:E2; simpl.
        -- rewrite Z.gtb_ltb in E2. apply Z.ltb_lt in E2.
           destruct (digitsVal rest (n * 10 + d) <=? maxVal) eqn:E;
             [apply Z.leb_le in E; lia | reflexivity].
        -- rewrite Z.gtb_ltb in E2. apply Z.ltb_ge in E2.
           apply IH; [exact Hr | lia | exact Hmax].
      * assert (Hw : wrap_uint 64 (n * 10 + d) = n * 10 + d - 2 ^ 64).
        { unfold wrap_uint. symmetry. apply Z.mod_unique with (q := 1); lia. }
        rewrite Hw.
        destruct (n * 10 + d - 2 ^ 64 <? n * 10) eqn:E1; [| apply Z.ltb_ge in E1; lia].
        simpl.
        destruct (digitsVal rest (n * 10 + d) <=? maxVal) eqn:E;
          [apply Z.leb_le in E; lia | reflexivity].
Qed.

Lemma ParseUint_loop_other (s : string) (maxVal : Z) : forall n,
  allDigits s = false ->
  exists v e, strconv.ParseUint_loop s n maxVal = (v, Some e).
Proof.
  induction s as [| c rest IH]; intros n Hd; simpl in *.
  - discriminate.
  - destruct (isDigit c) eqn:Hc; simpl in Hd.
    + rewrite (digitVal_digit c Hc).
      destruct (byte_val c - 48 >=? 10); [eauto |].
      destruct (n >=? _); [eauto |].
      destruct (_ || _); [eauto |].
      apply IH. exact Hd.
    + destruct (digitVal_other c Hc) as [Hn | [d [Hs Hge]]].
      * rewrite Hn. eauto.
      * rewrite Hs. destruct (d >=? 10) eqn:E; [eauto |].
        rewrite Z.geb_leb in E. apply Z.leb_gt in E. lia.
Qed.

(** *** [ParseUint] and [ParseInt] *)

Lemma maxVal_eq (a : GOARCH) :
  wrap_uint 64 (wrap_uint 64 (Z.shiftl 1 (intSize a)) - 1) = 2 ^ intSize a - 1.
Proof. destruct a; reflexivity. Qed.

Lemma cutoff_eq (a : GOARCH) :
  wrap_uint 64 (Z.shiftl 1 (intSize a - 1)) = 2 ^ (intSize a - 1).
Proof. destruct a; reflexivity. Qed.

Lemma pow_intSize (a : GOARCH) :
  2 ^ intSize a = 2 * 2 ^ (intSize a - 1) /\ 0 < 2 ^ (intSize a - 1) <= 2 ^ 63.
Proof. destruct a; simpl intSize; lia. Qed.

Lemma ParseUint_digits (a : GOARCH) (s : string) :
  s <> EmptyString -> allDigits s = true ->
  strconv.ParseUint a s =
  if digitsVal s 0 <=? 2 ^ intSize a - 1 then (digitsVal s 0, None)
  else (2 ^ intSize a - 1, Some (NumError "ParseUint" s ErrRange)).
Proof.
  intros Hne Hd. unfold strconv.ParseUint.
  destruct (String.eqb s "") eqn:E; [apply String.eqb_eq in E; contradiction |].
  cbv zeta. rewrite maxVal_eq.
  rewrite ParseUint_loop_digits.
  - destruct (digitsVal s 0 <=? 2 ^ intSize a - 1); reflexivity.
  - exact Hd.
  - destruct (pow_intSize a). lia.
  - unfold strconv.maxUint64. destruct a; simpl intSize; lia.
Qed.

Lemma ParseUint_other (a : GOARCH) (s : string) :
  s = EmptyString \/ allDigits s = false ->
  exists v e, strconv.ParseUint a s = (v, Some (NumError "ParseUint" s e)).
Proof.
  intros H. unfold strconv.ParseUint.
  destruct (String.eqb s "") eqn:E; [eauto |].
  destruct H as [H | H]; [subst s; discriminate |].
  cbv zeta.
  destruct (ParseUint_loop_other s
              (wrap_uint 64 (wrap_uint 64 (Z.shiftl 1 (intSize a)) - 1)) 0 H)
    as [v [e Hl]].
  rewrite Hl. eauto.
Qed.

Lemma wrap_int_64_neg (v : Z) :
  0 <= v <= 2 ^ 63 -> wrap_int 64 (- wrap_int 64 v) = - v.
Proof.
  intros Hv. destruct (Z.eq_dec v (2 ^ 63)) as [E | E].
  - subst v. reflexivity.
  - rewrite (wrap_int_small 64 v) by (change (64 - 1) with 63; lia).
    apply wrap_int_small; [lia | change (64 - 1) with 63; lia].
Qed.

(** The signed value after the sign has been picked off. *)
Lemma ParseInt_convert_digits (a : GOARCH) (s0 : string) (neg : bool) (d : string) :
  d <> EmptyString -> allDigits d = true ->
  let sv := if neg then - digitsVal d 0 else digitsVal d 0 in
  (inIntRange a sv -> strconv.ParseInt_convert a s0 neg d = (sv, None)) /\
  (~ inIntRange a sv ->
   exists v, strconv.ParseInt_convert a s0 neg d = (v, Some (NumError "ParseInt" s0 ErrRange))).
Proof.
  intros Hne Hd sv. subst sv.
  pose proof (digitsVal_ge d 0 Hd ltac:(lia)) as Hge.
  destruct (pow_intSize a) as [Hp [Hpos Hle]].
  unfold strconv.ParseInt_convert, inIntRange.
  rewrite (ParseUint_digits a d Hne Hd). cbv zeta. rewrite cutoff_eq.
  set (v := digitsVal d 0) in *. set (c := 2 ^ (intSize a - 1)) in *.
  destruct (v <=? 2 ^ intSize a - 1) eqn:Emax.
  - apply Z.leb_le in Emax.
    destruct neg; simpl negb; simpl andb.
    + destruct (v >? c) eqn:Ec; rewrite Z.gtb_ltb in Ec.
      * apply Z.ltb_lt in Ec. split; [lia | eauto].
      * apply Z.ltb_ge in Ec. split; [| lia].
        intros _. rewrite wrap_int_64_neg by lia. reflexivity.
    + destruct (v >=? c) eqn:Ec; rewrite Z.geb_leb in Ec.
      * apply Z.leb_le in Ec. split; [lia | eauto].
      * apply Z.leb_gt in Ec. split; [| lia].
        intros _. rewrite wrap_int_small by (change (64 - 1) with 63; lia). reflexivity.
  - apply Z.leb_gt in Emax.
    destruct neg; simpl negb; simpl andb.
    + destruct (2 ^ intSize a - 1 >? c) eqn:Ec; rewrite Z.gtb_ltb in Ec.
      * split; [lia | eauto].
      * apply Z.ltb_ge in Ec. destruct a; simpl intSize in *; subst c; simpl in Ec; lia.
    + destruct (2 ^ intSize a - 1 >=? c) eqn:Ec; rewrite Z.geb_leb in Ec.
      * split; [lia | eauto].
      * apply Z.leb_gt in Ec. lia.
Qed.

Lemma ParseUint_loop_range (s : string) (maxVal : Z) : forall n v,
  strconv.ParseUint_loop s n maxVal = (v, Some ErrRange) -> v = maxVal.
Proof.
  induction s as [| c rest IH]; intros n v H; simpl in H.
  - discriminate.
  - destruct (strconv.digitVal c) as [d |]; [| discriminate].
    destruct (d >=? 10); [discriminate |].
    destruct (n >=? _); [congruence |].
    destruct (_ || _); [congruence |].
    eapply IH. exact H.
Qed.

Lemma ParseUint_range (a : GOARCH) (s : string) (v : Z) (f num : string) :
  strconv.ParseUint a s = (v, Some (NumError f num ErrRange)) -> v = 2 ^ intSize a - 1.
Proof.
  unfold strconv.ParseUint. destruct (String.eqb s ""); [discriminate |].
  cbv zeta. rewrite maxVal_eq.
  destruct (strconv.ParseUint_loop s 0 (2 ^ intSize a - 1)) as [n [e |]] eqn:El;
    [| discriminate].
  intros H. inversion H; subst. eapply ParseUint_loop_range. exact El.
Qed.

Lemma ParseInt_convert_other (a : GOARCH) (s0 : string) (neg : bool) (d : string) :
  d = EmptyString \/ allDigits d = false ->
  exists v e, strconv.ParseInt_convert a s0 neg d = (v, Some (NumError "ParseInt" s0 e)).
Proof.
  intros H. unfold strconv.ParseInt_convert.
  destruct (ParseUint_other a d H) as [v [e Hu]]. rewrite Hu.
  destruct e; [eauto |]. cbv zeta.
  apply ParseUint_range in Hu. subst v. rewrite cutoff_eq.
  destruct neg, a; simpl; eauto.
Qed.

(** *** [Atoi] *)

Lemma sign_cases (c : ascii) :
  c = "-"%char \/ c = "+"%char \/ (Ascii.eqb c "-" = false /\ Ascii.eqb c "+" = false).
Proof.
  destruct (Ascii.eqb_spec c "-"); [tauto |].
  destruct (Ascii.eqb_spec c "+"); tauto.
Qed.

Lemma nonempty_len (s : string) : s <> EmptyString -> (len s <? 1) = false.
Proof.
  intros H. apply Z.ltb_ge. destruct s; [contradiction |].
  rewrite len_String. pose proof (len_nonneg s). lia.
Qed.

Lemma fast_cond_spec (a : GOARCH) (s : string) :
  (intSize a =? 32) && ((0 <? len s) && (len s <? 10))
  || (intSize a =? 64) && ((0 <? len s) && (len s <? 19)) = true ->
  0 < len s /\ 10 ^ len s <= 2 ^ (intSize a - 1).
Proof.
  intros H. apply orb_true_iff in H.
  destruct H as [H | H]; apply andb_true_iff in H; destruct H as [Ha H];
    apply andb_true_iff in H; destruct H as [H0 H1];
    apply Z.ltb_lt in H0; apply Z.ltb_lt in H1; apply Z.eqb_eq in Ha;
    rewrite Ha; (split; [exact H0 |]).
  - transitivity (10 ^ 9); [apply Z.pow_le_mono_r; lia | simpl; lia].
  - transitivity (10 ^ 18); [apply Z.pow_le_mono_r; lia | simpl; lia].
Qed.

Lemma fast_bound_unsigned (a : GOARCH) (s : string) :
  allDigits s = true -> 10 ^ len s <= 2 ^ (intSize a - 1) ->
  0 <= digitsVal s 0 < 2 ^ (intSize a - 1).
Proof.
  intros Hd Hb.
  pose proof (digitsVal_ge s 0 Hd ltac:(lia)).
  pose proof (digitsVal_bound s 0 Hd ltac:(lia)) as Hlt.
  lia.
Qed.

Lemma fast_bound (a : GOARCH) (c : ascii) (d : string) :
  allDigits d = true -> 10 ^ len (String c d) <= 2 ^ (intSize a - 1) ->
  0 <= digitsVal d 0 < 2 ^ (intSize a - 1).
Proof.
  intros Hd Hb. apply fast_bound_unsigned; [exact Hd |].
  etransitivity; [| exact Hb].
  apply Z.pow_le_mono_r; [lia |]. rewrite len_String. lia.
Qed.

(** On the fast path every base-10 integer is read, and it fits [int]. *)
Lemma Atoi_fast_integer (a : GOARCH) (s : string) :
  (intSize a =? 32) && ((0 <? len s) && (len s <? 10))
  || (intSize a =? 64) && ((0 <? len s) && (len s <? 19)) = true ->
  isBase10Integer s = true ->
  strconv.Atoi a s = (intVal s, None) /\ inIntRange a (intVal s).
Proof.
  intros Hc Hi. unfold strconv.Atoi. cbv zeta. rewrite Hc.
  apply fast_cond_spec in Hc. destruct Hc as [Hlen Hpow].
  destruct s as [| c rest]; [discriminate |].
  destruct (sign_cases c) as [-> | [-> | [E1 E2]]].
  - simpl in Hi. apply andb_true_iff in Hi. destruct Hi as [Hne Hd].
    apply negb_true_iff in Hne.
    assert (Hrest : rest <> EmptyString) by (intros ->; discriminate).
    pose proof (fast_bound a _ rest Hd Hpow) as Hb.
    simpl strconv.hasSign. simpl strconv.tail. simpl strconv.isNeg. simpl intVal. cbv iota.
    rewrite (nonempty_len rest Hrest). simpl andb. cbv iota.
    rewrite Atoi_loop_digits by (try assumption; lia).
    assert (Hr : inIntRange a (- digitsVal rest 0)) by (unfold inIntRange; lia).
    rewrite wrap_int_intSize by exact Hr. split; [reflexivity | exact Hr].
  - simpl in Hi. apply andb_true_iff in Hi. destruct Hi as [Hne Hd].
    apply negb_true_iff in Hne.
    assert (Hrest : rest <> EmptyString) by (intros ->; discriminate).
    pose proof (fast_bound a _ rest Hd Hpow) as Hb.
    simpl strconv.hasSign. simpl strconv.tail. simpl strconv.isNeg. simpl intVal. cbv iota.
    rewrite (nonempty_len rest Hrest). simpl andb. cbv iota.
    rewrite Atoi_loop_digits by (try assumption; lia).
    split; [reflexivity | unfold inIntRange; lia].
  - unfold isBase10Integer in Hi. rewrite E1, E2 in Hi. simpl orb in Hi. cbv iota in Hi.
    pose proof (fast_bound_unsigned a _ Hi Hpow) as Hb.
    unfold strconv.hasSign, strconv.isNeg, intVal. rewrite E1, E2. simpl orb. simpl andb.
    cbv iota.
    rewrite Atoi_loop_digits by (try assumption; lia).
    split; [reflexivity | unfold inIntRange; lia].
Qed.

(** On the fast path anything else is a syntax error. *)
Lemma Atoi_fast_other (a : GOARCH) (s : string) :
  (intSize a =? 32) && ((0 <? len s) && (len s <? 10))
  || (intSize a =? 64) && ((0 <? len s) && (len s <? 19)) = true ->
  isBase10Integer s = false ->
  strconv.Atoi a s = (0, Some (NumError "Atoi" s ErrSyntax)).
Proof.
  intros Hc Hi. unfold strconv.Atoi. cbv zeta. rewrite Hc.
  destruct s as [| c rest]; [apply fast_cond_spec in Hc; change (len "") with 0 in Hc; lia |].
  assert (Hsigned : forall neg,
    negb (String.eqb rest "") && allDigits rest = false ->
    (if true && (len rest <? 1) then (0, Some (NumError "Atoi" (String c rest) ErrSyntax))
     else match strconv.Atoi_loop a rest 0 with
          | Some n => (if neg : bool then wrap_int (intSize a) (- n) else n, None)
          | None => (0, Some (NumError "Atoi" (String c rest) ErrSyntax))
          end) = (0, Some (NumError "Atoi" (String c rest) ErrSyntax))).
  { intros neg H. destruct rest as [| c' rest']; [reflexivity |].
    simpl in H. rewrite nonempty_len by discriminate. simpl andb. cbv iota.
    rewrite Atoi_loop_other by exact H. reflexivity. }
  destruct (sign_cases c) as [-> | [-> | [E1 E2]]].
  - simpl in Hi. apply (Hsigned true). exact Hi.
  - simpl in Hi. apply (Hsigned false). exact Hi.
  - unfold isBase10Integer in Hi. rewrite E1, E2 in Hi. simpl orb in Hi. cbv iota in Hi.
    unfold strconv.hasSign, strconv.isNeg. rewrite E1, E2. simpl orb. simpl andb. cbv iota.
    rewrite Atoi_loop_other by exact Hi. reflexivity.
Qed.

Lemma ParseInt_integer (a : GOARCH) (s : string) :
  isBase10Integer s = true ->
  (inIntRange a (intVal s) -> strconv.ParseInt a s = (intVal s, None)) /\
  (~ inIntRange a (intVal s) ->
   exists v, strconv.ParseInt a s = (v, Some (NumError "ParseInt" s ErrRange))).
Proof.
  intros Hi. destruct s as [| c rest]; [discriminate |].
  unfold strconv.ParseInt. cbv zeta.
  destruct (sign_cases c) as [-> | [-> | [E1 E2]]].
  - simpl in Hi. apply andb_true_iff in Hi. destruct Hi as [Hne Hd].
    apply negb_true_iff in Hne.
    assert (Hrest : rest <> EmptyString) by (intros ->; discriminate).
    simpl. apply (ParseInt_convert_digits a (String "-" rest) true rest Hrest Hd).
  - simpl in Hi. apply andb_true_iff in Hi. destruct Hi as [Hne Hd].
    apply negb_true_iff in Hne.
    assert (Hrest : rest <> EmptyString) by (intros ->; discriminate).
    simpl. apply (ParseInt_convert_digits a (String "+" rest) false rest Hrest Hd).
  - unfold isBase10Integer in Hi. rewrite E1, E2 in Hi. simpl orb in Hi. cbv iota in Hi.
    unfold intVal. rewrite E1, E2.
    apply (ParseInt_convert_digits a (String c rest) false (String c rest));
      [discriminate | exact Hi].
Qed.

Lemma ParseInt_other (a : GOARCH) (s : string) :
  isBase10Integer s = false ->
  exists v e, strconv.ParseInt a s = (v, Some (NumError "ParseInt" s e)).
Proof.
  intros Hi. destruct s as [| c rest]; [simpl; eauto |].
  unfold strconv.ParseInt. cbv zeta.
  assert (Hsigned : negb (String.eqb rest "") && allDigits rest = false ->
                    rest = EmptyString \/ allDigits rest = false).
  { destruct rest; [left; reflexivity | simpl; tauto]. }
  destruct (sign_cases c) as [-> | [-> | [E1 E2]]].
  - simpl in Hi. simpl. apply ParseInt_convert_other. tauto.
  - simpl in Hi. simpl. apply ParseInt_convert_other. tauto.
  - unfold isBase10Integer in Hi. rewrite E1, E2 in Hi. simpl orb in Hi. cbv iota in Hi.
    rewrite E1, E2. apply ParseInt_convert_other. right. exact Hi.
Qed.

(** [Atoi] reads every base-10 integer that fits Go's [int]. *)
Lemma Atoi_integer (a : GOARCH) (s : string) :
  isBase10Integer s = true -> inIntRange a (intVal s) ->
  strconv.Atoi a s = (intVal s, None).
Proof.
  intros Hi Hr.
  destruct ((intSize a =? 32) && ((0 <? len s) && (len s <? 10))
            || (intSize a =? 64) && ((0 <? len s) && (len s <? 19))) eqn:Hc.
  - apply (Atoi_fast_integer a s Hc Hi).
  - unfold strconv.Atoi. cbv zeta. rewrite Hc.
    destruct (ParseInt_integer a s Hi) as [Hok _]. rewrite (Hok Hr).
    rewrite wrap_int_intSize by exact Hr. reflexivity.
Qed.

(** A base-10 integer outside the range of [int] is a range error. *)
Lemma Atoi_out_of_range (a : GOARCH) (s : string) :
  isBase10Integer s = true -> ~ inIntRange a (intVal s) ->
  exists v, strconv.Atoi a s = (v, Some (NumError "Atoi" s ErrRange)).
Proof.
  intros Hi Hr.
  destruct ((intSize a =? 32) && ((0 <? len s) && (len s <? 10))
            || (intSize a =? 64) && ((0 <? len s) && (len s <? 19))) eqn:Hc.
  - destruct (Atoi_fast_integer a s Hc Hi) as [_ Hin]. contradiction.
  - unfold strconv.Atoi. cbv zeta. rewrite Hc.
    destruct (ParseInt_integer a s Hi) as [_ Hbad].
    destruct (Hbad Hr) as [v Hv]. rewrite Hv. eauto.
Qed.

(** Anything that is not a base-10 integer is an error of [Atoi]. *)
Lemma Atoi_other (a : GOARCH) (s : string) :
  isBase10Integer s = false ->
  exists v e, strconv.Atoi a s = (v, Some (NumError "Atoi" s e)).
Proof.
  intros Hi.
  destruct ((intSize a =? 32) && ((0 <? len s) && (len s <? 10))
            || (intSize a =? 64) && ((0 <? len s) && (len s <? 19))) eqn:Hc.
  - rewrite (Atoi_fast_other a s Hc Hi). eauto.
  - unfold strconv.Atoi. cbv zeta. rewrite Hc.
    destruct (ParseInt_other a s Hi) as [v [e Hv]]. rewrite Hv. eauto.
Qed.

Lemma inIntRange_dec (a : GOARCH) (z : Z) : {inIntRange a z} + {~ inIntRange a z}.
Proof.
  destruct (inIntRangeb a z) eqn:E.
  - left. apply inIntRangeb_spec. exact E.
  - right. intros H. apply inIntRangeb_spec in H. congruence.
Qed.

(** What [Atoi] accepts is a base-10 integer within [int], read at its
    value. *)
Lemma Atoi_success_inv (a : GOARCH) (s : string) (v : Z) :
  strconv.Atoi a s = (v, None) ->
  isBase10Integer s = true /\ v = intVal s /\ inIntRange a (intVal s).
Proof.
  intros H. destruct (isBase10Integer s) eqn:Hi.
  - destruct (inIntRange_dec a (intVal s)) as [Hr | Hr].
    + rewrite (Atoi_integer a s Hi Hr) in H. inversion H. auto.
    + destruct (Atoi_out_of_range a s Hi Hr) as [v' Hv]. congruence.
  - destruct (Atoi_other a s Hi) as [v' [e Hv]]. congruence.
Qed.

(* ================================================================= *)
(** ** The decimal numeral of an integer *)

Ltac eval_byte :=
  repeat match goal with
  | |- context [byte_val (Ascii ?b0 ?b1 ?b2 ?b3 ?b4 ?b5 ?b6 ?b7)] =>
      let v := eval vm_compute in (byte_val (Ascii b0 b1 b2 b3 b4 b5 b6 b7)) in
      change (byte_val (Ascii b0 b1 b2 b3 b4 b5 b6 b7)) with v
  end.

Lemma uint_allDigits (d : uint) : allDigits (NilEmpty.string_of_uint d) = true.
Proof.
  induction d; simpl; try rewrite IHd; reflexivity.
Qed.

Lemma uint_val_acc (d : uint) : forall acc : positive,
  digitsVal (NilEmpty.string_of_uint d) (Z.pos acc) = Z.pos (Pos.of_uint_acc d acc).
Proof.
  induction d; intros acc;
    cbn [NilEmpty.string_of_uint digitsVal Pos.of_uint_acc];
    try reflexivity;
    rewrite <- IHd; f_equal; eval_byte; lia.
Qed.

Lemma uint_val (d : uint) :
  digitsVal (NilEmpty.string_of_uint d) 0 = Z.of_N (Pos.of_uint d).
Proof.
  induction d; cbn [NilEmpty.string_of_uint digitsVal Pos.of_uint];
    try reflexivity;
    try (eval_byte; exact IHd);
    eval_byte; cbn [Z.of_N]; rewrite <- uint_val_acc; f_equal.
Qed.

Lemma NilZero_uint_digits (d : uint) :
  NilZero.string_of_uint d <> EmptyString /\
  allDigits (NilZero.string_of_uint d) = true /\
  digitsVal (NilZero.string_of_uint d) 0 = Z.of_N (Pos.of_uint d).
Proof.
  destruct d;
    try (cbn [NilZero.string_of_uint]; repeat split;
         [discriminate | apply uint_allDigits | apply uint_val]).
  repeat split. discriminate.
Qed.

Lemma digit_not_sign (c : ascii) :
  isDigit c = true -> Ascii.eqb c "-" = false /\ Ascii.eqb c "+" = false.
Proof.
  intros H. destruct (sign_cases c) as [-> | [-> | E]]; [discriminate | discriminate | exact E].
Qed.

Lemma digit_not_quote (c : ascii) : isDigit c = true -> Ascii.eqb c dquote = false.
Proof.
  intros H. destruct (Ascii.eqb_spec c dquote) as [-> |]; [discriminate | reflexivity].
Qed.

Lemma digits_isBase10Integer (s : string) :
  s <> EmptyString -> allDigits s = true ->
  isBase10Integer s = true /\ intVal s = digitsVal s 0.
Proof.
  intros Hne Hd. destruct s as [| c rest]; [contradiction |].
  pose proof Hd as Hd'. simpl in Hd'. apply andb_true_iff in Hd'. destruct Hd' as [Hc _].
  destruct (digit_not_sign c Hc) as [E1 E2].
  unfold isBase10Integer, intVal. rewrite E1, E2. simpl orb. cbv iota. auto.
Qed.

(** The bare form of [T] is a base-10 integer, and it denotes [T]. *)
Lemma bareForm_integer (T : Z) :
  isBase10Integer (bareForm T) = true /\ intVal (bareForm T) = T.
Proof.
  unfold bareForm. pose proof (DecimalZ.of_to T) as Hto.
  destruct (Z.to_int T) as [d | d]; cbn [NilZero.string_of_int];
    destruct (NilZero_uint_digits d) as [Hne [Hd Hv]].
  - destruct (digits_isBase10Integer _ Hne Hd) as [Hi Hval].
    split; [exact Hi |]. rewrite Hval, Hv. exact Hto.
  - split.
    + simpl. rewrite Hd.
      destruct (String.eqb_spec (NilZero.string_of_uint d) ""); [contradiction | reflexivity].
    + simpl. rewrite Hv. exact Hto.
Qed.

(* ================================================================= *)
(** ** Stripping the quotes *)

Lemma TrimRight_digits (s : string) :
  allDigits s = true -> strings.TrimRight s (String dquote EmptyString) = s.
Proof.
  induction s as [| c rest IH]; intros Hd; simpl in *.
  - reflexivity.
  - apply andb_true_iff in Hd. destruct Hd as [Hc Hr].
    rewrite (IH Hr). rewrite (digit_not_quote c Hc).
    destruct rest; reflexivity.
Qed.

Lemma TrimRight_quote_end (s : string) :
  strings.TrimRight (s ++ String dquote EmptyString) (String dquote EmptyString) =
  strings.TrimRight s (String dquote EmptyString).
Proof.
  induction s as [| c rest IH]; simpl.
  - reflexivity.
  - simpl in IH. rewrite IH. reflexivity.
Qed.

Lemma first_not_quote (s : string) :
  isBase10Integer s = true ->
  exists c rest, s = String c rest /\ Ascii.eqb c dquote = false.
Proof.
  intros Hi. destruct s as [| c rest]; [discriminate |].
  exists c, rest. split; [reflexivity |].
  destruct (sign_cases c) as [-> | [-> | [E1 E2]]]; try reflexivity.
  unfold isBase10Integer in Hi. rewrite E1, E2 in Hi. simpl in Hi.
  apply andb_true_iff in Hi. apply digit_not_quote. tauto.
Qed.

Lemma TrimRight_integer (s : string) :
  isBase10Integer s = true -> strings.TrimRight s (String dquote EmptyString) = s.
Proof.
  intros Hi. destruct s as [| c rest]; [discriminate |].
  destruct (sign_cases c) as [-> | [-> | [E1 E2]]].
  - simpl in Hi. apply andb_true_iff in Hi. destruct Hi as [Hne Hd].
    cbn [strings.TrimRight]. rewrite (TrimRight_digits rest Hd).
    destruct rest; [discriminate | reflexivity].
  - simpl in Hi. apply andb_true_iff in Hi. destruct Hi as [Hne Hd].
    cbn [strings.TrimRight]. rewrite (TrimRight_digits rest Hd).
    destruct rest; [discriminate | reflexivity].
  - unfold isBase10Integer in Hi. rewrite E1, E2 in Hi. simpl orb in Hi. cbv iota in Hi.
    apply TrimRight_digits. exact Hi.
Qed.

(** Stripping the quotes from a bare base-10 integer changes nothing. *)
Lemma stripQuotes_integer (s : string) :
  isBase10Integer s = true -> stripQuotes s = s.
Proof.
  intros Hi. unfold stripQuotes.
  destruct (first_not_quote s Hi) as [c [rest [-> Hq]]].
  cbn [strings.TrimLeft strings.IndexByte]. rewrite Hq.
  apply TrimRight_integer. exact Hi.
Qed.

(** Stripping the quotes from a quoted base-10 integer gives the bare
    one. *)
Lemma stripQuotes_quoted (s : string) :
  isBase10Integer s = true ->
  stripQuotes (String dquote (s ++ String dquote EmptyString)) = s.
Proof.
  intros Hi. unfold stripQuotes.
  destruct (first_not_quote s Hi) as [c [rest [-> Hq]]].
  cbn [strings.TrimLeft strings.IndexByte append].
  rewrite Ascii.eqb_refl, Hq. cbv iota.
  change (String c (rest ++ String dquote EmptyString))
    with (String c rest ++ String dquote EmptyString)%string.
  rewrite TrimRight_quote_end. apply TrimRight_integer. exact Hi.
Qed.

(* ================================================================= *)
(** ** Instants *)

Lemma wrap_int_idem_add (x y : Z) :
  wrap_int 64 (wrap_int 64 x + y) = wrap_int 64 (x + y).
Proof.
  unfold wrap_int. f_equal.
  replace ((x + 2 ^ (64 - 1)) mod 2 ^ 64 - 2 ^ (64 - 1) + y + 2 ^ (64 - 1))
    with ((x + 2 ^ (64 - 1)) mod 2 ^ 64 + y) by lia.
  rewrite Zplus_mod_idemp_l. f_equal. lia.
Qed.

(** [time.Unix(T, 0)] is the instant whose Unix epoch second is [T]. *)
Lemma Unix_instant (T : Z) :
  - 2 ^ 63 <= T < 2 ^ 63 ->
  time.Time_Unix (time.Unix T 0) = T /\ time.Time_Nanosecond (time.Unix T 0) = 0.
Proof.
  intros HT. unfold time.Time_Unix, time.sec, time.Unix. simpl.
  split; [| reflexivity].
  replace (wrap_int 64 (T + time.unixToInternal) - time.unixToInternal)
    with (wrap_int 64 (T + time.unixToInternal) + - time.unixToInternal) by lia.
  rewrite wrap_int_idem_add.
  replace (T + time.unixToInternal + - time.unixToInternal) with T by lia.
  apply wrap_int_small; [lia |]. change (64 - 1) with 63. lia.
Qed.

(* ================================================================= *)
(** ** The timestamp codec *)

Lemma UnmarshalJSON_strip (a : GOARCH) (m : caTime) (b : string) :
  UnmarshalJSON a m b =
  match strconv.Atoi a (stripQuotes b) with
  | (_, Some err) => (m, Some err)
  | (i, None) => ({| Time := time.Unix (wrap_int 64 i) 0 |}, None)
  end.
Proof. reflexivity. Qed.

(** A token whose stripped content is a base-10 integer within [int]
    decodes to the instant of that Unix epoch second. *)
Lemma UnmarshalJSON_integer (a : GOARCH) (m : caTime) (b : string) :
  isBase10Integer (stripQuotes b) = true -> inIntRange a (intVal (stripQuotes b)) ->
  UnmarshalJSON a m b = ({| Time := time.Unix (intVal (stripQuotes b)) 0 |}, None).
Proof.
  intros Hi Hr. rewrite UnmarshalJSON_strip, (Atoi_integer a _ Hi Hr).
  rewrite wrap_int_small; [reflexivity | lia |].
  change (64 - 1) with 63. apply (inIntRange_64 a). exact Hr.
Qed.

(** A token whose stripped content is anything else is refused with the
    error of [Atoi], and the receiver is left as it was. *)
Lemma UnmarshalJSON_other (a : GOARCH) (m : caTime) (b : string) :
  isBase10Integer (stripQuotes b) = false ->
  exists e, UnmarshalJSON a m b = (m, Some (NumError "Atoi" (stripQuotes b) e)).
Proof.
  intros Hi. rewrite UnmarshalJSON_strip.
  destruct (Atoi_other a _ Hi) as [v [e Hv]]. rewrite Hv. eauto.
Qed.

Lemma UnmarshalJSON_success_inv (a : GOARCH) (m t : caTime) (b : string) :
  UnmarshalJSON a m b = (t, None) ->
  isBase10Integer (stripQuotes b) = true /\
  inIntRange a (intVal (stripQuotes b)) /\
  t = {| Time := time.Unix (intVal (stripQuotes b)) 0 |}.
Proof.
  intros H. rewrite UnmarshalJSON_strip in H.
  destruct (strconv.Atoi a (stripQuotes b)) as [i [e |]] eqn:Ea; [discriminate |].
  destruct (Atoi_success_inv a _ i Ea) as [Hi [Hv Hr]].
  split; [exact Hi |]. split; [exact Hr |].
  inversion H. subst i. rewrite wrap_int_small; [reflexivity | lia |].
  change (64 - 1) with 63. apply (inIntRange_64 a). exact Hr.
Qed.

Lemma anyByte_TrimLeft (p : ascii -> bool) (s : string) :
  p dquote = false ->
  anyByte p (strings.TrimLeft s (String dquote EmptyString)) = anyByte p s.
Proof.
  intros Hp. induction s as [| c rest IH]; simpl.
  - reflexivity.
  - destruct (Ascii.eqb_spec c dquote) as [-> | Hne].
    + rewrite IH, Hp. reflexivity.
    + reflexivity.
Qed.

Lemma anyByte_TrimRight (p : ascii -> bool) (s : string) :
  p dquote = false ->
  anyByte p (strings.TrimRight s (String dquote EmptyString)) = anyByte p s.
Proof.
  intros Hp. induction s as [| c rest IH]; simpl.
  - reflexivity.
  - destruct (strings.TrimRight rest (String dquote EmptyString)) as [| c' t] eqn:Et.
    + rewrite <- IH. simpl.
      destruct (Ascii.eqb_spec c dquote) as [-> | Hne]; simpl.
      * rewrite Hp. reflexivity.
      * reflexivity.
    + rewrite <- IH. reflexivity.
Qed.

Lemma digits_no_mark (s : string) :
  allDigits s = true -> anyByte isFractionOrExponentMark s = false.
Proof.
  induction s as [| c rest IH]; intros Hd; simpl in *.
  - reflexivity.
  - apply andb_true_iff in Hd. destruct Hd as [Hc Hr]. rewrite (IH Hr).
    unfold isFractionOrExponentMark.
    destruct (Ascii.eqb_spec c ".") as [-> |]; [discriminate |].
    destruct (Ascii.eqb_spec c "e") as [-> |]; [discriminate |].
    destruct (Ascii.eqb_spec c "E") as [-> |]; [discriminate |].
    reflexivity.
Qed.

Lemma integer_no_mark (s : string) :
  isBase10Integer s = true -> hasFractionOrExponent s = false.
Proof.
  intros Hi. unfold hasFractionOrExponent. destruct s as [| c rest]; [reflexivity |].
  destruct (sign_cases c) as [-> | [-> | [E1 E2]]].
  - simpl in Hi. apply andb_true_iff in Hi. destruct Hi as [_ Hd].
    simpl. apply digits_no_mark. exact Hd.
  - simpl in Hi. apply andb_true_iff in Hi. destruct Hi as [_ Hd].
    simpl. apply digits_no_mark. exact Hd.
  - unfold isBase10Integer in Hi. rewrite E1, E2 in Hi. simpl orb in Hi. cbv iota in Hi.
    apply digits_no_mark. exact Hi.
Qed.

Lemma mark_not_integer (b : string) :
  hasFractionOrExponent b = true -> isBase10Integer (stripQuotes b) = false.
Proof.
  intros Hm. destruct (isBase10Integer (stripQuotes b)) eqn:Hi; [| reflexivity].
  apply integer_no_mark in Hi. unfold hasFractionOrExponent, stripQuotes in *.
  rewrite anyByte_TrimRight, anyByte_TrimLeft in Hi by reflexivity. congruence.
Qed.

(** Both JSON forms of one integer are decoded alike, whatever the
    integer: the decoder sees the same text once the quotes are gone. *)
Lemma timestamp_forms_same_result (a : GOARCH) (m : caTime) (T : Z) :
  UnmarshalJSON a m (quotedForm T) = UnmarshalJSON a m (bareForm T).
Proof.
  destruct (bareForm_integer T) as [Hi _].
  rewrite !UnmarshalJSON_strip. unfold quotedForm.
  rewrite (stripQuotes_quoted _ Hi), (stripQuotes_integer _ Hi). reflexivity.
Qed.

(** C1 (as amended): for every integer T that fits Go's int, the quoted
    JSON form and the bare JSON form of T decode to the identical instant,
    Unix epoch second T; stripping the quotes from the bare numeral is a
    no-op, so both forms reach the integer parse with the same text. *)
Theorem timestamp_forms_agree (a : GOARCH) (m : caTime) (T : Z) (HT : inIntRange a T) :
  stripQuotes (bareForm T) = bareForm T /\
  stripQuotes (quotedForm T) = stripQuotes (bareForm T) /\
  UnmarshalJSON a m (quotedForm T) = ({| Time := time.Unix T 0 |}, None) /\
  UnmarshalJSON a m (bareForm T) = ({| Time := time.Unix T 0 |}, None) /\
  instant {| Time := time.Unix T 0 |} = T.
Proof.
  destruct (bareForm_integer T) as [Hi Hv].
  pose proof (stripQuotes_integer _ Hi) as Hbare.
  pose proof (stripQuotes_quoted _ Hi) as Hquoted.
  assert (Hdec : UnmarshalJSON a m (bareForm T) = ({| Time := time.Unix T 0 |}, None)).
  { rewrite (UnmarshalJSON_integer a m (bareForm T)); rewrite Hbare; try assumption.
    - rewrite Hv. reflexivity.
    - rewrite Hv. exact HT. }
  split; [exact Hbare |].
  split; [unfold quotedForm; rewrite Hquoted, Hbare; reflexivity |].
  split; [rewrite timestamp_forms_same_result; exact Hdec |].
  split; [exact Hdec |].
  unfold instant. simpl Time. apply Unix_instant. apply (inIntRange_64 a). exact HT.
Qed.

Lemma timestamp_forms_agree_witness :
  inIntRange arch64 1543600800 /\
  (stripQuotes (bareForm 1543600800) = bareForm 1543600800 /\
   stripQuotes (quotedForm 1543600800) = stripQuotes (bareForm 1543600800) /\
   UnmarshalJSON arch64 {| Time := time.Unix 0 0 |} (quotedForm 1543600800) =
     ({| Time := time.Unix 1543600800 0 |}, None) /\
   UnmarshalJSON arch64 {| Time := time.Unix 0 0 |} (bareForm 1543600800) =
     ({| Time := time.Unix 1543600800 0 |}, None) /\
   instant {| Time := time.Unix 1543600800 0 |} = 1543600800).
Proof.
  assert (H : inIntRange arch64 1543600800) by (unfold inIntRange; simpl; lia).
  split; [exact H |].
  apply (timestamp_forms_agree arch64 {| Time := time.Unix 0 0 |} 1543600800 H).
Defined.

(** C1 (as stated) fails at T = 2^63 on a 64-bit platform: neither form
    decodes to an instant, both end in the range error of Atoi and leave
    the receiver as it was. *)
Lemma timestamp_out_of_int_range :
  UnmarshalJSON arch64 {| Time := time.Unix 0 0 |} (bareForm 9223372036854775808) =
    ({| Time := time.Unix 0 0 |}, Some (NumError "Atoi" "9223372036854775808" ErrRange)) /\
  UnmarshalJSON arch64 {| Time := time.Unix 0 0 |} (quotedForm 9223372036854775808) =
    ({| Time := time.Unix 0 0 |}, Some (NumError "Atoi" "9223372036854775808" ErrRange)).
Proof. split; vm_compute; reflexivity. Qed.

(** C9: every input whose content after quote-stripping is not a base-10
    integer fails to decode: the error of Atoi is returned (the
    MalformedTimestamp condition) and the receiver holds no new instant. *)
Theorem malformed_timestamp_fails (a : GOARCH) (m : caTime) (b : string) :
  isBase10Integer (stripQuotes b) = false ->
  exists e, UnmarshalJSON a m b = (m, Some (NumError "Atoi" (stripQuotes b) e)).
Proof.
  apply UnmarshalJSON_other.
Qed.

Lemma malformed_timestamp_fails_witness :
  isBase10Integer (stripQuotes "2018-11-30") = false /\
  exists e, UnmarshalJSON arch64 {| Time := time.Unix 0 0 |} "2018-11-30" =
            ({| Time := time.Unix 0 0 |},
             Some (NumError "Atoi" (stripQuotes "2018-11-30") e)).
Proof.
  split; [reflexivity |].
  apply (malformed_timestamp_fails arch64 {| Time := time.Unix 0 0 |} "2018-11-30").
  reflexivity.
Defined.

(** C10: timestamp decoding fails on every token that has a fractional
    part or an exponent; what it accepts is only a whole base-10 integer,
    optionally quoted and optionally signed, decoded to the instant of
    that Unix epoch second, so that a negative value gives an instant
    before the epoch. *)
Theorem timestamp_accepts_only_whole_integers (a : GOARCH) (m : caTime) (b : string) :
  (hasFractionOrExponent b = true ->
   exists e, UnmarshalJSON a m b = (m, Some e)) /\
  (forall t, UnmarshalJSON a m b = (t, None) ->
   isBase10Integer (stripQuotes b) = true /\
   instant t = intVal (stripQuotes b) /\
   (intVal (stripQuotes b) < 0 -> instant t < 0)) /\
  (isBase10Integer (stripQuotes b) = true -> inIntRange a (intVal (stripQuotes b)) ->
   UnmarshalJSON a m b = ({| Time := time.Unix (intVal (stripQuotes b)) 0 |}, None)).
Proof.
  split; [| split].
  - intros Hm. apply mark_not_integer in Hm.
    destruct (UnmarshalJSON_other a m b Hm) as [e He]. eauto.
  - intros t Ht. destruct (UnmarshalJSON_success_inv a m t b Ht) as [Hi [Hr ->]].
    assert (Hinst : instant {| Time := time.Unix (intVal (stripQuotes b)) 0 |} =
                    intVal (stripQuotes b)).
    { unfold instant. simpl Time. apply Unix_instant. apply (inIntRange_64 a). exact Hr. }
    rewrite Hinst. split; [exact Hi |]. split; [reflexivity | tauto].
  - apply UnmarshalJSON_integer.
Qed.

Lemma timestamp_accepts_only_whole_integers_witness :
  (exists e, UnmarshalJSON arch64 {| Time := time.Unix 0 0 |} "1543600800.5" =
             ({| Time := time.Unix 0 0 |}, Some e)) /\
  (exists e, UnmarshalJSON arch64 {| Time := time.Unix 0 0 |} "1.5436008e9" =
             ({| Time := time.Unix 0 0 |}, Some e)) /\
  UnmarshalJSON arch64 {| Time := time.Unix 0 0 |} "-86400" =
    ({| Time := time.Unix (-86400) 0 |}, None) /\
  instant {| Time := time.Unix (-86400) 0 |} < 0.
Proof.
  split; [| split; [| split]].
  - apply (timestamp_accepts_only_whole_integers arch64 _ "1543600800.5"). reflexivity.
  - apply (timestamp_accepts_only_whole_integers arch64 _ "1.5436008e9"). reflexivity.
  - apply (timestamp_accepts_only_whole_integers arch64 {| Time := time.Unix 0 0 |} "-86400").
    + reflexivity.
    + unfold inIntRange. simpl. lia.
  - destruct (timestamp_accepts_only_whole_integers arch64 {| Time := time.Unix 0 0 |} "-86400")
      as [_ [H _]].
    destruct (H {| Time := time.Unix (-86400) 0 |}) as [_ [_ Hneg]].
    + reflexivity.
    + apply Hneg. simpl. lia.
Defined.

(* ================================================================= *)
(** ** Decoding sample tokens *)

Example decode_quoted :
  UnmarshalJSON arch64 {| Time := time.Unix 0 0 |} (quotedForm 1543600800) =
  ({| Time := time.Unix 1543600800 0 |}, None).
Proof. vm_compute. reflexivity. Qed.

Example decode_bare_min :
  UnmarshalJSON arch64 {| Time := time.Unix 0 0 |} (bareForm (-9223372036854775808)) =
  ({| Time := time.Unix (-9223372036854775808) 0 |}, None).
Proof. vm_compute. reflexivity. Qed.

Example decode_overflow_then_letter :
  snd (UnmarshalJSON arch64 {| Time := time.Unix 0 0 |} "99999999999999999999999999x") =
  Some (NumError "Atoi" "99999999999999999999999999x" ErrRange).
Proof. vm_compute. reflexivity. Qed.

Example decode_2038_on_32_bits :
  snd (UnmarshalJSON arch32 {| Time := time.Unix 0 0 |} "2147483648") =
  Some (NumError "Atoi" "2147483648" ErrRange).
Proof. vm_compute. reflexivity. Qed.

Example instant_before_epoch : time.Time_Unix (time.Unix (-5) 0) = -5.
Proof. vm_compute. reflexivity. Qed.

(* ================================================================= *)
(** ** The session operations *)

Section SessionProperties.

Context {lib : GoLib}.

Lemma http_NewRequest_error (method url : string) (body : option string)
    (req : Request) (e : error) :
  http_NewRequest method url body = (req, Some e) -> exists msg, e = TransportError msg.
Proof.
  unfold http_NewRequest. destruct (url_Parse url) as [u [msg |]]; intros H; inversion H.
  eauto.
Qed.

(** C5: when the response to a Login decodes with a non-empty error code,
    Login returns AuthenticationFailed with that code and message, and the
    session, its token included, is left as it was. *)
Theorem Login_rejected (api : caAPI) (username password : string) (w w' : World)
    (b body : string) (httpResponse : Response) (logonResult : caLogonResponse) :
  json_Marshal_caLogonRequest
    {| Username := username; Password := password;
       UseRadiusAuthentication := false; ConnectionNumber := 1 |} = (b, None) ->
  Client_Post api
    (Base api ++
     "/PasswordVault/WebServices/auth/Cyberark/CyberArkAuthenticationService.svc/Logon")
    "application/json" b w = (inl httpResponse, w') ->
  Body httpResponse = (body, None) ->
  json_Unmarshal_caLogonResponse body zero_caLogonResponse = (logonResult, None) ->
  logon_ErrorCode logonResult <> "" ->
  Login api username password w =
    (api, w', Some (AuthenticationFailed (logon_ErrorCode logonResult)
                                          (logon_ErrorMessage logonResult))) /\
  LogonKey (fst (fst (Login api username password w))) = LogonKey api.
Proof.
  intros HM HP HB HU HE.
  assert (HL : Login api username password w =
    (api, w', Some (AuthenticationFailed (logon_ErrorCode logonResult)
                                          (logon_ErrorMessage logonResult)))).
  { unfold Login. cbv zeta. rewrite HM, HP, HB, HU.
    destruct (String.eqb_spec (logon_ErrorCode logonResult) ""); [contradiction |].
    reflexivity. }
  rewrite HL. split; reflexivity.
Qed.

(** C6: when the response to a Login decodes with an empty error code,
    Login succeeds and the session token becomes the CyberArkLogonResult of
    the response, as it is. *)
Theorem Login_accepted (api : caAPI) (username password : string) (w w' : World)
    (b body : string) (httpResponse : Response) (logonResult : caLogonResponse) :
  json_Marshal_caLogonRequest
    {| Username := username; Password := password;
       UseRadiusAuthentication := false; ConnectionNumber := 1 |} = (b, None) ->
  Client_Post api
    (Base api ++
     "/PasswordVault/WebServices/auth/Cyberark/CyberArkAuthenticationService.svc/Logon")
    "application/json" b w = (inl httpResponse, w') ->
  Body httpResponse = (body, None) ->
  json_Unmarshal_caLogonResponse body zero_caLogonResponse = (logonResult, None) ->
  logon_ErrorCode logonResult = "" ->
  snd (Login api username password w) = None /\
  LogonKey (fst (fst (Login api username password w))) = CyberArkLogonResult logonResult /\
  Login api username password w =
    (set_LogonKey api (CyberArkLogonResult logonResult), w', None).
Proof.
  intros HM HP HB HU HE.
  assert (HL : Login api username password w =
    (set_LogonKey api (CyberArkLogonResult logonResult), w', None)).
  { unfold Login. cbv zeta. rewrite HM, HP, HB, HU, HE. reflexivity. }
  rewrite HL. repeat split.
Qed.

(** C7: with an empty session token the incoming-requests listing fails
    with NotAuthenticated, and the world is untouched: no request is
    sent. *)
Theorem IncomingRequests_needs_token (api : caAPI) (w : World) :
  LogonKey api = "" ->
  IncomingRequests api w = (zero_caIncomingRequestsResponse, api, w, Some NotAuthenticated) /\
  calls (snd (fst (IncomingRequests api w))) = calls w.
Proof.
  intros HK.
  assert (HI : IncomingRequests api w =
               (zero_caIncomingRequestsResponse, api, w, Some NotAuthenticated)).
  { unfold IncomingRequests. cbv zeta. rewrite HK. reflexivity. }
  rewrite HI. split; reflexivity.
Qed.

Lemma Logout_keeps_session (api : caAPI) (w : World) :
  fst (fst (Logout api w)) = api.
Proof.
  unfold Logout. destruct (String.eqb (LogonKey api) ""); [reflexivity |].
  cbv zeta. destruct (http_NewRequest "POST" _ None) as [req [e |]]; [reflexivity |].
  destruct (Client_Do api _ w) as [[resp | e] w1]; reflexivity.
Qed.

Lemma Logout_error_with_token (api : caAPI) (w : World) :
  LogonKey api <> "" ->
  snd (Logout api w) = None \/ exists msg, snd (Logout api w) = Some (TransportError msg).
Proof.
  intros HK. unfold Logout.
  destruct (String.eqb_spec (LogonKey api) ""); [contradiction |].
  cbv zeta. destruct (http_NewRequest "POST" _ None) as [req [e |]] eqn:HN.
  - right. destruct (http_NewRequest_error _ _ _ _ _ HN) as [msg ->]. simpl. eauto.
  - destruct (Client_Do api _ w) as [[resp | e] w1]; simpl; [left; reflexivity |].
    right. unfold TransportError. eauto.
Qed.

(** C4 (as amended): Logout fails with NotAuthenticated exactly when the
    session token is empty, and then sends nothing.  Logout never changes
    the session: the token stays, so a Logout that follows a Logout of a
    session with a token passes the guard again. *)
Theorem Logout_guard (api : caAPI) (w : World) :
  (snd (Logout api w) = Some NotAuthenticated_Logout <-> LogonKey api = "") /\
  (LogonKey api = "" -> Logout api w = (api, w, Some NotAuthenticated_Logout)) /\
  fst (fst (Logout api w)) = api /\
  (LogonKey api <> "" ->
   forall w2, snd (Logout (fst (fst (Logout api w))) w2) <> Some NotAuthenticated_Logout).
Proof.
  assert (Hempty : LogonKey api = "" -> Logout api w = (api, w, Some NotAuthenticated_Logout)).
  { intros HK. unfold Logout. rewrite HK. reflexivity. }
  assert (Htoken : forall api' w', LogonKey api' <> "" ->
                   snd (Logout api' w') <> Some NotAuthenticated_Logout).
  { intros api' w' HK. destruct (Logout_error_with_token api' w' HK) as [H | [msg H]];
      rewrite H; discriminate. }
  split; [| split; [exact Hempty | split; [apply Logout_keeps_session |]]].
  - split.
    + intros H. destruct (String.eqb_spec (LogonKey api) "") as [E | E]; [exact E |].
      exfalso. exact (Htoken api w E H).
    + intros HK. rewrite (Hempty HK). reflexivity.
  - intros HK w2. rewrite Logout_keeps_session. apply Htoken. exact HK.
Qed.

(** C3 (as amended): when the response to a ConfirmRequest has a status
    other than 200, the outcome is decided by the body: a read error if the
    body cannot be read, a DecodeError if it does not decode, a RemoteError
    with the code and the message if it decodes with a non-empty error
    code, and success if it decodes with an empty error code. *)
Theorem ConfirmRequest_other_status (api : caAPI) (r : caIncomingRequest) (reason : string)
    (w w' : World) (b : string) (httpReq : Request) (httpResp : Response) :
  json_Marshal_caConfirmRequest {| Reason := reason |} = (b, None) ->
  http_NewRequest "POST"
    (Base api ++ "/PasswordVault/API/IncomingRequests/" ++ RequestID r ++ "/Confirm")
    (Some b) = (httpReq, None) ->
  Client_Do api
    (Header_Set "Content-Type" "application/json"
       (Header_Set "Authorization" (LogonKey api) httpReq)) w = (inl httpResp, w') ->
  StatusCode httpResp <> 200 ->
  (forall body e, Body httpResp = (body, Some e) ->
     ConfirmRequest api r reason w = (api, w', Some (ReadError e))) /\
  (forall body c e, Body httpResp = (body, None) ->
     json_Unmarshal_caConfirmResponse body zero_caConfirmResponse = (c, Some e) ->
     ConfirmRequest api r reason w = (api, w', Some (DecodeError e))) /\
  (forall body c, Body httpResp = (body, None) ->
     json_Unmarshal_caConfirmResponse body zero_caConfirmResponse = (c, None) ->
     confirm_ErrorCode c <> "" ->
     ConfirmRequest api r reason w =
       (api, w', Some (RemoteError (confirm_ErrorCode c) (confirm_ErrorMessage c)))) /\
  (forall body c, Body httpResp = (body, None) ->
     json_Unmarshal_caConfirmResponse body zero_caConfirmResponse = (c, None) ->
     confirm_ErrorCode c = "" ->
     ConfirmRequest api r reason w = (api, w', None)).
Proof.
  intros HM HN HD HS.
  assert (H200 : (StatusCode httpResp =? 200) = false) by (apply Z.eqb_neq; exact HS).
  repeat split.
  - intros body e HB. unfold ConfirmRequest. cbv zeta.
    rewrite HM, HN, HD, H200, HB. reflexivity.
  - intros body c e HB HU. unfold ConfirmRequest. cbv zeta.
    rewrite HM, HN, HD, H200, HB, HU. reflexivity.
  - intros body c HB HU HE. unfold ConfirmRequest. cbv zeta.
    rewrite HM, HN, HD, H200, HB, HU.
    destruct (String.eqb_spec (confirm_ErrorCode c) ""); [contradiction | reflexivity].
  - intros body c HB HU HE. unfold ConfirmRequest. cbv zeta.
    rewrite HM, HN, HD, H200, HB, HU, HE. reflexivity.
Qed.

(** encoding/json cannot store into the unexported fields: whatever the
    body, the decoded envelope has the error code it had before. *)
Lemma Unmarshal_keeps_errorCode (body : string) (v : caMyRequestsResponse) :
  errorCode (fst (json_Unmarshal_caMyRequestsResponse body v)) = errorCode v /\
  errorMessage (fst (json_Unmarshal_caMyRequestsResponse body v)) = errorMessage v.
Proof.
  unfold json_Unmarshal_caMyRequestsResponse.
  destruct (json_Unmarshal_exported_caMyRequestsResponse body (MyRequests_ v)).
  split; reflexivity.
Qed.

(** Whenever the response to MyRequests can be read and decodes,
    MyRequests succeeds, whatever error code the envelope carries. *)
Lemma MyRequests_ignores_error_code (api : caAPI) (w w' : World) (httpReq : Request)
    (httpResponse : Response) (respBody : string) (l : list caMyRequest) :
  http_NewRequest "GET" (Base api ++ "/PasswordVault/API/MyRequests") None = (httpReq, None) ->
  Client_Do api
    (setQuery "onlywaiting" "false" "expired" "false"
       (Header_Set "Authorization" (LogonKey api) httpReq)) w = (inl httpResponse, w') ->
  Body httpResponse = (respBody, None) ->
  json_Unmarshal_exported_caMyRequestsResponse respBody [] = (l, None) ->
  MyRequests api w =
    ({| errorCode := ""; errorMessage := ""; MyRequests_ := l |}, api, w', None).
Proof.
  intros HN HD HB HU. unfold MyRequests. cbv zeta. rewrite HN, HD, HB.
  unfold json_Unmarshal_caMyRequestsResponse. simpl MyRequests_. rewrite HU.
  reflexivity.
Qed.

(** The error of MyRequests is never a RemoteError. *)
Lemma MyRequests_errors (api : caAPI) (w : World) (e : error) :
  snd (MyRequests api w) = Some e -> exists o msg, e = libError o msg.
Proof.
  unfold MyRequests. cbv zeta.
  destruct (http_NewRequest "GET" _ None) as [req [e0 |]] eqn:HN.
  - simpl. intros H. inversion H. subst.
    destruct (http_NewRequest_error _ _ _ _ _ HN) as [msg ->]. unfold TransportError. eauto.
  - destruct (Client_Do api _ w) as [[resp | e1] w1]; [| simpl; intros H; inversion H; eauto].
    destruct (Body resp) as [respBody [e2 |]]; [simpl; intros H; inversion H; eauto |].
    unfold json_Unmarshal_caMyRequestsResponse. simpl MyRequests_.
    destruct (json_Unmarshal_exported_caMyRequestsResponse respBody []) as [l [e3 |]];
      simpl; intros H; inversion H; eauto.
Qed.

(** *** Batch retrieval *)

Lemma GetPassword_prints_nothing (ca : caAPI) (r : caMyRequest) (w : World) :
  stdout (snd (fst (GetPassword ca r w))) = stdout w /\
  stderr (snd (fst (GetPassword ca r w))) = stderr w /\
  snd (fst (fst (GetPassword ca r w))) = ca.
Proof.
  unfold GetPassword. cbv zeta.
  destruct (http_NewRequest "GET" _ None) as [req [e |]]; [repeat split |].
  unfold Client_Do.
  destruct (api_Client ca _ _) as [resp | e]; [| repeat split].
  destruct (Body resp) as [bytes [e |]]; repeat split.
Qed.

(** A fetch that fails is passed over: the loop goes on with the rest,
    and nothing is printed about the failure. *)
Lemma retrieve_loop_failure (ca ca' : caAPI) (r : caMyRequest) (rest : list caMyRequest)
    (w w' : World) (passwd : string) (err : error) :
  GetPassword ca r w = (passwd, ca', w', Some err) ->
  retrieve_loop ca (r :: rest) w = retrieve_loop ca' rest w' /\
  stdout w' = stdout w /\ stderr w' = stderr w.
Proof.
  intros H. pose proof (GetPassword_prints_nothing ca r w) as [Ho [He _]].
  rewrite H in Ho, He. simpl in Ho, He.
  simpl retrieve_loop. rewrite H. auto.
Qed.

(** A fetch that succeeds prints one line, and the loop goes on. *)
Lemma retrieve_loop_success (ca ca' : caAPI) (r : caMyRequest) (rest : list caMyRequest)
    (w w' : World) (passwd : string) :
  GetPassword ca r w = (passwd, ca', w', None) ->
  retrieve_loop ca (r :: rest) w =
  retrieve_loop ca' rest (Print (my_Name r ++ " = " ++ passwd ++ newline) w').
Proof.
  intros H. simpl retrieve_loop. rewrite H. reflexivity.
Qed.

(** The loop never writes to standard error. *)
Lemma retrieve_loop_stderr (reqs : list caMyRequest) : forall ca w,
  stderr (snd (retrieve_loop ca reqs w)) = stderr w.
Proof.
  induction reqs as [| r rest IH]; intros ca w; simpl.
  - reflexivity.
  - pose proof (GetPassword_prints_nothing ca r w) as [_ [He _]].
    destruct (GetPassword ca r w) as [[[passwd ca'] w'] [err |]]; simpl in He;
      rewrite IH; simpl; exact He.
Qed.

End SessionProperties.

(* ================================================================= *)
(** ** The operations on the sample vault *)

Lemma Login_rejected_witness :
  snd (@Login sampleLib (session [ok body_logon_rejected] "") "alice" "hunter2" emptyWorld) =
    Some (AuthenticationFailed "ITATS004E" "Authentication failure for User [alice].") /\
  LogonKey (fst (fst (@Login sampleLib (session [ok body_logon_rejected] "")
                        "alice" "hunter2" emptyWorld))) = "".
Proof.
  edestruct (@Login_rejected sampleLib (session [ok body_logon_rejected] "")
               "alice" "hunter2" emptyWorld) as [H1 H2];
    [reflexivity | reflexivity | reflexivity | reflexivity | discriminate |].
  rewrite H1. split; reflexivity.
Defined.

Lemma Login_accepted_witness :
  snd (@Login sampleLib (session [ok body_logon_ok] "") "alice" "hunter2" emptyWorld) = None /\
  LogonKey (fst (fst (@Login sampleLib (session [ok body_logon_ok] "")
                        "alice" "hunter2" emptyWorld))) =
    "AAEAAAD/////AQAAAAAAAAAMAgAAAF".
Proof.
  edestruct (@Login_accepted sampleLib (session [ok body_logon_ok] "")
               "alice" "hunter2" emptyWorld) as [H1 [H2 H3]];
    [reflexivity | reflexivity | reflexivity | reflexivity | reflexivity |].
  split; [exact H1 | exact H2].
Defined.

Lemma IncomingRequests_needs_token_witness :
  LogonKey (session [] "") = "" /\
  @IncomingRequests sampleLib (session [] "") emptyWorld =
    (zero_caIncomingRequestsResponse, session [] "", emptyWorld, Some NotAuthenticated) /\
  calls (snd (fst (@IncomingRequests sampleLib (session [] "") emptyWorld))) = [].
Proof.
  split; [reflexivity |].
  apply (@IncomingRequests_needs_token sampleLib (session [] "") emptyWorld).
  reflexivity.
Defined.

Lemma Logout_guard_witness :
  @Logout sampleLib (session [] "") emptyWorld =
    (session [] "", emptyWorld, Some NotAuthenticated_Logout) /\
  forall w2, snd (@Logout sampleLib
                    (fst (fst (@Logout sampleLib (session [ok ""; ok ""] "AAEAAAD") emptyWorld)))
                    w2) <> Some NotAuthenticated_Logout.
Proof.
  split.
  - apply (@Logout_guard sampleLib (session [] "") emptyWorld). reflexivity.
  - apply (@Logout_guard sampleLib (session [ok ""; ok ""] "AAEAAAD") emptyWorld).
    discriminate.
Defined.

(** C4 (as stated) fails on a session that logs in and then logs out
    twice: the second Logout is not stopped by the guard, it sends a
    third request and succeeds, the token being still in place. *)
Lemma Logout_twice_passes_guard :
  let api0 := session [ok body_logon_ok; ok ""; ok ""] "" in
  let r1 := @Login sampleLib api0 "alice" "hunter2" emptyWorld in
  let r2 := @Logout sampleLib (fst (fst r1)) (snd (fst r1)) in
  let r3 := @Logout sampleLib (fst (fst r2)) (snd (fst r2)) in
  snd r1 = None /\ snd r2 = None /\
  snd r3 = None /\ snd r3 <> Some NotAuthenticated_Logout /\
  LogonKey (fst (fst r3)) = "AAEAAAD/////AQAAAAAAAAAMAgAAAF" /\
  List.length (calls (snd (fst r3))) = 3%nat.
Proof.
  cbv zeta. repeat split; try (vm_compute; reflexivity).
  vm_compute. discriminate.
Qed.

Lemma ConfirmRequest_other_status_witness :
  snd (@ConfirmRequest sampleLib (session [status 403 body_confirm_rejected] "AAEAAAD")
         sample_incoming "approved" emptyWorld) =
  Some (RemoteError "PASWS178E" "Request was already confirmed.").
Proof.
  edestruct (@ConfirmRequest_other_status sampleLib
               (session [status 403 body_confirm_rejected] "AAEAAAD")
               sample_incoming "approved" emptyWorld) as [_ [_ [H _]]];
    [reflexivity | reflexivity | reflexivity | discriminate |].
  rewrite (H body_confirm_rejected
             {| confirm_ErrorCode := "PASWS178E";
                confirm_ErrorMessage := "Request was already confirmed." |}
             eq_refl eq_refl ltac:(discriminate)).
  reflexivity.
Defined.

(** C3 (as stated) fails on a response of status 500 whose body is the
    empty JSON object: the body decodes, its error code is empty, and
    ConfirmRequest returns success. *)
Lemma ConfirmRequest_500_succeeds :
  serve [status 500 "{}"] 0%nat
    {| Method := "POST"; req_URL := {| Location := ""; RawQuery := "" |};
       Header := []; req_Body := None |} =
    inl {| StatusCode := 500; Body := ("{}", None) |} /\
  snd (@ConfirmRequest sampleLib (session [status 500 "{}"] "AAEAAAD")
         sample_incoming "approved" emptyWorld) = None /\
  List.length (calls (snd (fst (@ConfirmRequest sampleLib (session [status 500 "{}"] "AAEAAAD")
                                  sample_incoming "approved" emptyWorld)))) = 1%nat.
Proof. repeat split. Qed.

(** C2: on a response of status 200 whose envelope carries the error code
    PASWS013E, MyRequests returns success with an empty sequence: the
    error code never reaches the envelope the code inspects. *)
Theorem MyRequests_drops_server_error :
  @MyRequests sampleLib (session [ok body_my_requests_error] "AAEAAAD") emptyWorld =
  ({| errorCode := ""; errorMessage := ""; MyRequests_ := [] |},
   session [ok body_my_requests_error] "AAEAAAD",
   snd (fst (@MyRequests sampleLib (session [ok body_my_requests_error] "AAEAAAD") emptyWorld)),
   None).
Proof.
  erewrite (@MyRequests_ignores_error_code sampleLib
              (session [ok body_my_requests_error] "AAEAAAD") emptyWorld);
    reflexivity.
Qed.

(** C8: in a batch of three requests whose second fetch fails, the first
    and the third credential are printed, the third after the failure;
    the failure itself leaves no trace on standard output or standard
    error, and the function returns normally. *)
Theorem retrieve_skips_failure_silently :
  let ca := session [ok body_my_requests; ok "s3cret-1";
                     inr "connection reset by peer"; ok "s3cret-3"] "AAEAAAD" in
  let w1 := snd (fst (@MyRequests sampleLib ca emptyWorld)) in
  let w2 := snd (fst (@GetPassword sampleLib ca (hd mq_admin sample_requests) w1)) in
  let r := @retrieve sampleLib ca emptyWorld in
  snd (@GetPassword sampleLib ca mq_admin w2) =
    Some (TransportError "connection reset by peer") /\
  stdout (snd (fst r)) = ["db-root = s3cret-1" ++ newline; "web-admin = s3cret-3" ++ newline] /\
  stderr (snd (fst r)) = [] /\
  snd r = None /\
  List.length (calls (snd (fst r))) = 4%nat.
Proof. cbv zeta. repeat split. Qed.

Example sample_query :
  @Values_Encode sampleLib [("onlywaiting", ["true"]); ("expired", ["false"])] =
  "expired=false&onlywaiting=true".
Proof. reflexivity. Qed.

(* ================================================================= *)
(** ** More on the timestamp codec *)

(** X1: decoding succeeds exactly when the text left after the quotes
    are stripped is a base-10 integer that fits Go's int. *)
Theorem UnmarshalJSON_succeeds_iff (a : GOARCH) (m : caTime) (b : string) :
  snd (UnmarshalJSON a m b) = None <->
  isBase10Integer (stripQuotes b) = true /\ inIntRange a (intVal (stripQuotes b)).
Proof.
  split.
  - intros H. destruct (UnmarshalJSON a m b) as [t e] eqn:E. simpl in H. subst e.
    destruct (UnmarshalJSON_success_inv a m t b E) as [Hi [Hr _]]. auto.
  - intros [Hi Hr]. rewrite (UnmarshalJSON_integer a m b Hi Hr). reflexivity.
Qed.

(** X2: a failed decode leaves the receiver as it was, and a successful
    one does not depend on what the receiver held. *)
Theorem UnmarshalJSON_receiver (a : GOARCH) (m m' : caTime) (b : string) :
  (snd (UnmarshalJSON a m b) <> None -> fst (UnmarshalJSON a m b) = m) /\
  snd (UnmarshalJSON a m b) = snd (UnmarshalJSON a m' b) /\
  (snd (UnmarshalJSON a m b) = None ->
   fst (UnmarshalJSON a m b) = fst (UnmarshalJSON a m' b)).
Proof.
  rewrite !UnmarshalJSON_strip.
  destruct (strconv.Atoi a (stripQuotes b)) as [i [e |]]; simpl.
  - repeat split. intros H. discriminate.
  - repeat split. intros H. contradiction.
Qed.

Lemma UnmarshalJSON_receiver_witness :
  fst (UnmarshalJSON arch64 {| Time := time.Unix 1543388400 0 |} "tomorrow") =
    {| Time := time.Unix 1543388400 0 |} /\
  fst (UnmarshalJSON arch64 {| Time := time.Unix 1543388400 0 |} "1543600800") =
  fst (UnmarshalJSON arch64 {| Time := time.Unix 0 0 |} "1543600800").
Proof.
  split.
  - apply (UnmarshalJSON_receiver arch64 _ {| Time := time.Unix 0 0 |} "tomorrow").
    discriminate.
  - apply (UnmarshalJSON_receiver arch64 _ {| Time := time.Unix 0 0 |} "1543600800").
    reflexivity.
Defined.

(** X3: a base-10 integer outside the range of Go's int is refused with
    the range error of Atoi: on a 32-bit platform that is every timestamp
    from 2^31 on. *)
Theorem UnmarshalJSON_out_of_range (a : GOARCH) (m : caTime) (b : string) :
  isBase10Integer (stripQuotes b) = true -> ~ inIntRange a (intVal (stripQuotes b)) ->
  UnmarshalJSON a m b = (m, Some (NumError "Atoi" (stripQuotes b) ErrRange)).
Proof.
  intros Hi Hr. rewrite UnmarshalJSON_strip.
  destruct (Atoi_out_of_range a _ Hi Hr) as [v Hv]. rewrite Hv. reflexivity.
Qed.

Lemma UnmarshalJSON_out_of_range_witness :
  UnmarshalJSON arch32 {| Time := time.Unix 0 0 |} "2147483648" =
  ({| Time := time.Unix 0 0 |}, Some (NumError "Atoi" (stripQuotes "2147483648") ErrRange)).
Proof.
  apply (UnmarshalJSON_out_of_range arch32 {| Time := time.Unix 0 0 |} "2147483648").
  - reflexivity.
  - unfold inIntRange. simpl. lia.
Defined.

Lemma TrimLeft_quote_end (s : string) :
  strings.TrimLeft (s ++ String dquote EmptyString) (String dquote EmptyString) =
  match strings.TrimLeft s (String dquote EmptyString) with
  | EmptyString => EmptyString
  | t => t ++ String dquote EmptyString
  end.
Proof.
  induction s as [| c rest IH]; simpl.
  - reflexivity.
  - destruct (Ascii.eqb c dquote); [exact IH | reflexivity].
Qed.

Lemma stripQuotes_more_quotes (b : string) :
  stripQuotes (String dquote b) = stripQuotes b /\
  stripQuotes (b ++ String dquote EmptyString) = stripQuotes b.
Proof.
  unfold stripQuotes. split.
  - simpl. reflexivity.
  - rewrite TrimLeft_quote_end.
    destruct (strings.TrimLeft b (String dquote EmptyString)) as [| c t] eqn:E.
    + reflexivity.
    + apply TrimRight_quote_end.
Qed.

(** X4: one more quote at either end of the token changes nothing, so
    quotes that are doubled or not balanced are accepted like a pair. *)
Theorem UnmarshalJSON_more_quotes (a : GOARCH) (m : caTime) (b : string) :
  UnmarshalJSON a m (String dquote b) = UnmarshalJSON a m b /\
  UnmarshalJSON a m (b ++ String dquote EmptyString) = UnmarshalJSON a m b.
Proof.
  rewrite !UnmarshalJSON_strip.
  destruct (stripQuotes_more_quotes b) as [H1 H2]. rewrite H1, H2. split; reflexivity.
Qed.

Lemma UnmarshalJSON_integer_text (a : GOARCH) (m : caTime) (s : string) (v : Z) :
  isBase10Integer s = true -> intVal s = v -> inIntRange a v ->
  UnmarshalJSON a m s = ({| Time := time.Unix v 0 |}, None).
Proof.
  intros Hi Hv Hr. subst v.
  rewrite (UnmarshalJSON_integer a m s); rewrite (stripQuotes_integer s Hi).
  - reflexivity.
  - exact Hi.
  - exact Hr.
Qed.

(** X5: a leading plus sign and leading zeros are accepted: the digits
    after them are decoded at their value. *)
Theorem UnmarshalJSON_plus_and_zeros (a : GOARCH) (m : caTime) (d : string) :
  d <> EmptyString -> allDigits d = true -> inIntRange a (digitsVal d 0) ->
  UnmarshalJSON a m (String "+" d) = ({| Time := time.Unix (digitsVal d 0) 0 |}, None) /\
  UnmarshalJSON a m (String "0" d) = ({| Time := time.Unix (digitsVal d 0) 0 |}, None) /\
  UnmarshalJSON a m d = ({| Time := time.Unix (digitsVal d 0) 0 |}, None).
Proof.
  intros Hne Hd Hr.
  assert (Hplus : isBase10Integer (String "+" d) = true).
  { simpl. rewrite Hd. destruct (String.eqb_spec d ""); [contradiction | reflexivity]. }
  assert (Hzero : isBase10Integer (String "0" d) = true /\
                  intVal (String "0" d) = digitsVal d 0).
  { destruct (digits_isBase10Integer (String "0" d)) as [Hi Hv];
      [discriminate | simpl; exact Hd |].
    split; [exact Hi | rewrite Hv; reflexivity]. }
  destruct Hzero as [Hzero Hzv].
  destruct (digits_isBase10Integer d Hne Hd) as [Hbare Hbv].
  split; [| split].
  - apply UnmarshalJSON_integer_text; [exact Hplus | reflexivity | exact Hr].
  - apply UnmarshalJSON_integer_text; [exact Hzero | exact Hzv | exact Hr].
  - apply UnmarshalJSON_integer_text; [exact Hbare | exact Hbv | exact Hr].
Qed.

Lemma UnmarshalJSON_plus_and_zeros_witness :
  UnmarshalJSON arch64 {| Time := time.Unix 0 0 |} "+0015" =
    ({| Time := time.Unix (digitsVal "0015" 0) 0 |}, None) /\
  UnmarshalJSON arch64 {| Time := time.Unix 0 0 |} "00015" =
    ({| Time := time.Unix (digitsVal "0015" 0) 0 |}, None) /\
  UnmarshalJSON arch64 {| Time := time.Unix 0 0 |} "0015" =
    ({| Time := time.Unix (digitsVal "0015" 0) 0 |}, None).
Proof.
  apply (UnmarshalJSON_plus_and_zeros arch64 {| Time := time.Unix 0 0 |} "0015").
  - discriminate.
  - reflexivity.
  - unfold inIntRange. simpl. lia.
Defined.

Lemma TrimLeft_shape (s : string) :
  (exists n, s = quotes n ++ strings.TrimLeft s (String dquote EmptyString)) /\
  firstByte (strings.TrimLeft s (String dquote EmptyString)) <> Some dquote.
Proof.
  induction s as [| c rest [[n Hn] Hf]]; simpl.
  - split; [exists O; reflexivity | discriminate].
  - destruct (Ascii.eqb_spec c dquote) as [-> | Hne].
    + split; [| exact Hf]. exists (S n). simpl. rewrite <- Hn. reflexivity.
    + split; [exists O; reflexivity |]. simpl. congruence.
Qed.

Lemma TrimRight_shape (s : string) :
  (exists k, s = strings.TrimRight s (String dquote EmptyString) ++ quotes k) /\
  lastByte (strings.TrimRight s (String dquote EmptyString)) <> Some dquote /\
  (firstByte s <> Some dquote ->
   firstByte (strings.TrimRight s (String dquote EmptyString)) = firstByte s).
Proof.
  induction s as [| c rest [[k Hk] [Hl _]]]; simpl.
  - split; [exists O; reflexivity |]. split; [discriminate | reflexivity].
  - destruct (strings.TrimRight rest (String dquote EmptyString)) as [| c' t] eqn:Et.
    + destruct (Ascii.eqb_spec c dquote) as [-> | Hne].
      * split; [exists (S k); simpl; rewrite Hk at 1; reflexivity |].
        split; [discriminate | intros H; contradiction].
      * split; [exists k; simpl; rewrite Hk at 1; reflexivity |].
        split; [simpl; congruence | reflexivity].
    + split; [exists k; simpl; rewrite Hk at 1; reflexivity |].
      split; [exact Hl | reflexivity].
Qed.

(** X6: stripping takes away quotes only, and all of them at both ends:
    the token is the stripped text between two runs of quotes, and the
    stripped text neither begins nor ends with a quote. *)
Theorem stripQuotes_shape (b : string) :
  (exists n k, b = quotes n ++ stripQuotes b ++ quotes k) /\
  firstByte (stripQuotes b) <> Some dquote /\
  lastByte (stripQuotes b) <> Some dquote.
Proof.
  unfold stripQuotes.
  destruct (TrimLeft_shape b) as [[n Hn] Hf].
  destruct (TrimRight_shape (strings.TrimLeft b (String dquote EmptyString)))
    as [[k Hk] [Hl Hfirst]].
  split; [| split].
  - exists n, k. rewrite <- Hk. exact Hn.
  - rewrite (Hfirst Hf). exact Hf.
  - exact Hl.
Qed.

(* ================================================================= *)
(** ** More on the session operations *)

Section MoreSessionProperties.

Context {lib : GoLib}.

Lemma atMostOneRequest_refl (w : World) : atMostOneRequest w w.
Proof. unfold atMostOneRequest. auto. Qed.

Lemma Client_Do_sent (api : caAPI) (req : Request) (w : World) :
  Client_Do api req w = (api_Client api (List.length (calls w)) req, sent req w).
Proof. reflexivity. Qed.

Lemma atMostOneRequest_sent (req : Request) (w : World) : atMostOneRequest w (sent req w).
Proof. unfold atMostOneRequest, sent. simpl. eauto. Qed.

Lemma Client_Post_frame (api : caAPI) (url contentType body : string) (w : World) :
  atMostOneRequest w (snd (Client_Post api url contentType body w)).
Proof.
  unfold Client_Post. destruct (http_NewRequest "POST" url (Some body)) as [req [e |]].
  - apply atMostOneRequest_refl.
  - rewrite Client_Do_sent. apply atMostOneRequest_sent.
Qed.

Lemma Login_frame (api : caAPI) (username password : string) (w : World) :
  atMostOneRequest w (snd (fst (Login api username password w))).
Proof.
  unfold Login. cbv zeta.
  destruct (json_Marshal_caLogonRequest _) as [b [e |]];
    [apply atMostOneRequest_refl |].
  pose proof (Client_Post_frame api
    (Base api ++
     "/PasswordVault/WebServices/auth/Cyberark/CyberArkAuthenticationService.svc/Logon")
    "application/json" b w) as HF.
  destruct (Client_Post api _ "application/json" b w) as [[resp | e] w1];
    simpl in HF; [| exact HF].
  destruct (Body resp) as [body [e |]]; [exact HF |].
  destruct (json_Unmarshal_caLogonResponse body zero_caLogonResponse) as [r [e |]];
    [exact HF |].
  destruct (negb (String.eqb (logon_ErrorCode r) "")); exact HF.
Qed.

Lemma Logout_frame (api : caAPI) (w : World) :
  atMostOneRequest w (snd (fst (Logout api w))).
Proof.
  unfold Logout. destruct (String.eqb (LogonKey api) ""); [apply atMostOneRequest_refl |].
  cbv zeta. destruct (http_NewRequest "POST" _ None) as [req [e |]];
    [apply atMostOneRequest_refl |].
  rewrite Client_Do_sent.
  destruct (api_Client api _ _) as [resp | e]; apply atMostOneRequest_sent.
Qed.

(** X7: Login never touches the base URL or the client of the session,
    and when it returns an error the whole session, its token included, is
    as before. *)
Theorem Login_failure_keeps_session (api : caAPI) (username password : string) (w : World) :
  Base (fst (fst (Login api username password w))) = Base api /\
  api_Client (fst (fst (Login api username password w))) = api_Client api /\
  (snd (Login api username password w) <> None ->
   fst (fst (Login api username password w)) = api).
Proof.
  unfold Login. cbv zeta.
  destruct (json_Marshal_caLogonRequest _) as [b [e |]]; [simpl; auto |].
  destruct (Client_Post api _ "application/json" b w) as [[resp | e] w1]; [| simpl; auto].
  destruct (Body resp) as [body [e |]]; [simpl; auto |].
  destruct (json_Unmarshal_caLogonResponse body zero_caLogonResponse) as [r [e |]];
    [simpl; auto |].
  destruct (negb (String.eqb (logon_ErrorCode r) "")); simpl; auto.
  repeat split. intros H. contradiction.
Qed.

(** X8: how Login reports what goes wrong before the response is
    decoded: a payload that cannot be encoded and a request that cannot
    be sent are reported with a prefix and the cause, a body that cannot
    be read as the bare text whoops, without the cause. *)
Theorem Login_failure_reports (api : caAPI) (username password : string) (w : World) :
  let url := Base api ++
    "/PasswordVault/WebServices/auth/Cyberark/CyberArkAuthenticationService.svc/Logon" in
  let p := {| Username := username; Password := password;
              UseRadiusAuthentication := false; ConnectionNumber := 1 |} in
  (forall b e, json_Marshal_caLogonRequest p = (b, Some e) ->
     Login api username password w =
       (api, w, Some (errorString ("unable to unmarshal login request: " ++ e)))) /\
  (forall b e w', json_Marshal_caLogonRequest p = (b, None) ->
     Client_Post api url "application/json" b w = (inr e, w') ->
     Login api username password w =
       (api, w', Some (errorString
          ("unable to create a POST request to '" ++ url ++ "': " ++ e)))) /\
  (forall b resp w' body e, json_Marshal_caLogonRequest p = (b, None) ->
     Client_Post api url "application/json" b w = (inl resp, w') ->
     Body resp = (body, Some e) ->
     Login api username password w = (api, w', Some (errorString "whoops"))) /\
  (forall b resp w' body r e, json_Marshal_caLogonRequest p = (b, None) ->
     Client_Post api url "application/json" b w = (inl resp, w') ->
     Body resp = (body, None) ->
     json_Unmarshal_caLogonResponse body zero_caLogonResponse = (r, Some e) ->
     Login api username password w = (api, w', Some (DecodeError e))).
Proof.
  cbv zeta. repeat split.
  - intros b e HM. unfold Login. cbv zeta. rewrite HM. reflexivity.
  - intros b e w' HM HP. unfold Login. cbv zeta. rewrite HM, HP. reflexivity.
  - intros b resp w' body e HM HP HB. unfold Login. cbv zeta. rewrite HM, HP, HB.
    reflexivity.
  - intros b resp w' body r e HM HP HB HU. unfold Login. cbv zeta.
    rewrite HM, HP, HB, HU. reflexivity.
Qed.

(** X9: every operation of the session sends at most one request and
    prints nothing, and all of them but Login hand the session back as it
    was. *)
Theorem operations_frame (api : caAPI) (w : World) :
  (forall username password,
     atMostOneRequest w (snd (fst (Login api username password w)))) /\
  (atMostOneRequest w (snd (fst (Logout api w))) /\ fst (fst (Logout api w)) = api) /\
  (atMostOneRequest w (snd (fst (IncomingRequests api w))) /\
   snd (fst (fst (IncomingRequests api w))) = api) /\
  (forall r reason,
     atMostOneRequest w (snd (fst (ConfirmRequest api r reason w))) /\
     fst (fst (ConfirmRequest api r reason w)) = api) /\
  (atMostOneRequest w (snd (fst (MyRequests api w))) /\
   snd (fst (fst (MyRequests api w))) = api) /\
  (forall req,
     atMostOneRequest w (snd (fst (GetPassword api req w))) /\
     snd (fst (fst (GetPassword api req w))) = api).
Proof.
  split; [| split; [| split; [| split; [| split]]]].
  - intros username password. apply Login_frame.
  - split; [apply Logout_frame | apply Logout_keeps_session].
  - unfold IncomingRequests. cbv zeta.
    destruct (String.eqb (LogonKey api) "");
      [split; [apply atMostOneRequest_refl | reflexivity] |].
    destruct (http_NewRequest "GET" _ None) as [req [e |]];
      [split; [apply atMostOneRequest_refl | reflexivity] |].
    rewrite Client_Do_sent.
    destruct (api_Client api _ _) as [resp | e];
      [| split; [apply atMostOneRequest_sent | reflexivity]].
    destruct (Body resp) as [bytes [e |]];
      [split; [apply atMostOneRequest_sent | reflexivity] |].
    destruct (json_Unmarshal_caIncomingRequestsResponse bytes _) as [r [e |]];
      split; try apply atMostOneRequest_sent; reflexivity.
  - intros r reason. unfold ConfirmRequest. cbv zeta.
    destruct (json_Marshal_caConfirmRequest _) as [b [e |]];
      [split; [apply atMostOneRequest_refl | reflexivity] |].
    destruct (http_NewRequest "POST" _ (Some b)) as [req [e |]];
      [split; [apply atMostOneRequest_refl | reflexivity] |].
    rewrite Client_Do_sent.
    destruct (api_Client api _ _) as [resp | e];
      [| split; [apply atMostOneRequest_sent | reflexivity]].
    destruct (StatusCode resp =? 200);
      [split; [apply atMostOneRequest_sent | reflexivity] |].
    destruct (Body resp) as [body [e |]];
      [split; [apply atMostOneRequest_sent | reflexivity] |].
    destruct (json_Unmarshal_caConfirmResponse body _) as [c [e |]];
      [split; [apply atMostOneRequest_sent | reflexivity] |].
    destruct (negb (String.eqb (confirm_ErrorCode c) ""));
      split; try apply atMostOneRequest_sent; reflexivity.
  - unfold MyRequests. cbv zeta.
    destruct (http_NewRequest "GET" _ None) as [req [e |]];
      [split; [apply atMostOneRequest_refl | reflexivity] |].
    rewrite Client_Do_sent.
    destruct (api_Client api _ _) as [resp | e];
      [| split; [apply atMostOneRequest_sent | reflexivity]].
    destruct (Body resp) as [body [e |]];
      [split; [apply atMostOneRequest_sent | reflexivity] |].
    destruct (json_Unmarshal_caMyRequestsResponse body _) as [c [e |]];
      [split; [apply atMostOneRequest_sent | reflexivity] |].
    destruct (negb (String.eqb (errorCode c) ""));
      split; try apply atMostOneRequest_sent; reflexivity.
  - intros req. unfold GetPassword. cbv zeta.
    destruct (http_NewRequest "GET" _ None) as [r [e |]];
      [split; [apply atMostOneRequest_refl | reflexivity] |].
    rewrite Client_Do_sent.
    destruct (api_Client api _ _) as [resp | e];
      [| split; [apply atMostOneRequest_sent | reflexivity]].
    destruct (Body resp) as [body [e |]];
      split; try apply atMostOneRequest_sent; reflexivity.
Qed.

Lemma http_NewRequest_ok (method url : string) (body : option string) (u : URL) :
  url_Parse url = (u, None) ->
  http_NewRequest method url body =
  ({| Method := method; req_URL := u; Header := []; req_Body := body |}, None).
Proof. intros H. unfold http_NewRequest. rewrite H. reflexivity. Qed.

(** X10: a response of status 200 to a ConfirmRequest is a success
    whatever its body: the body is neither read nor decoded. *)
Theorem ConfirmRequest_status_200 (api : caAPI) (r : caIncomingRequest) (reason : string)
    (w w' : World) (b : string) (httpReq : Request) (httpResp : Response) :
  json_Marshal_caConfirmRequest {| Reason := reason |} = (b, None) ->
  http_NewRequest "POST"
    (Base api ++ "/PasswordVault/API/IncomingRequests/" ++ RequestID r ++ "/Confirm")
    (Some b) = (httpReq, None) ->
  Client_Do api
    (Header_Set "Content-Type" "application/json"
       (Header_Set "Authorization" (LogonKey api) httpReq)) w = (inl httpResp, w') ->
  StatusCode httpResp = 200 ->
  ConfirmRequest api r reason w = (api, w', None).
Proof.
  intros HM HN HD HS. unfold ConfirmRequest. cbv zeta. rewrite HM, HN, HD, HS.
  reflexivity.
Qed.

Lemma ConfirmRequest_world (api : caAPI) (r : caIncomingRequest) (reason : string)
    (w : World) (b : string) (u : URL) :
  json_Marshal_caConfirmRequest {| Reason := reason |} = (b, None) ->
  url_Parse (Base api ++ "/PasswordVault/API/IncomingRequests/" ++ RequestID r ++ "/Confirm")
    = (u, None) ->
  snd (fst (ConfirmRequest api r reason w)) =
  sent {| Method := "POST"; req_URL := u;
          Header := [("Authorization", LogonKey api); ("Content-Type", "application/json")];
          req_Body := Some b |} w.
Proof.
  intros HM HU. unfold ConfirmRequest. cbv zeta.
  rewrite HM, (http_NewRequest_ok _ _ _ _ HU), Client_Do_sent.
  destruct (api_Client api _ _) as [resp | e]; [| reflexivity].
  destruct (StatusCode resp =? 200); [reflexivity |].
  destruct (Body resp) as [body [e |]]; [reflexivity |].
  destruct (json_Unmarshal_caConfirmResponse body _) as [c [e |]]; [reflexivity |].
  destruct (negb (String.eqb (confirm_ErrorCode c) "")); reflexivity.
Qed.

Lemma ConfirmRequest_keeps_session (api : caAPI) (r : caIncomingRequest) (reason : string)
    (w : World) :
  fst (fst (ConfirmRequest api r reason w)) = api.
Proof.
  unfold ConfirmRequest. cbv zeta.
  destruct (json_Marshal_caConfirmRequest _) as [b [e |]]; [reflexivity |].
  destruct (http_NewRequest "POST" _ (Some b)) as [req [e |]]; [reflexivity |].
  destruct (Client_Do api _ w) as [[resp | e] w1]; [| reflexivity].
  destruct (StatusCode resp =? 200); [reflexivity |].
  destruct (Body resp) as [body [e |]]; [reflexivity |].
  destruct (json_Unmarshal_caConfirmResponse body _) as [c [e |]]; [reflexivity |].
  destruct (negb (String.eqb (confirm_ErrorCode c) "")); reflexivity.
Qed.

(** X11: the request a ConfirmRequest sends, whatever the answer: a POST
    to the URL with the request identifier put in as it is, with the
    session token as Authorization header, the JSON content type, and the
    encoded reason as body. *)
Theorem ConfirmRequest_request (api : caAPI) (r : caIncomingRequest) (reason : string)
    (w : World) (b : string) (u : URL) :
  json_Marshal_caConfirmRequest {| Reason := reason |} = (b, None) ->
  url_Parse (Base api ++ "/PasswordVault/API/IncomingRequests/" ++ RequestID r ++ "/Confirm")
    = (u, None) ->
  snd (fst (ConfirmRequest api r reason w)) =
  sent {| Method := "POST"; req_URL := u;
          Header := [("Authorization", LogonKey api); ("Content-Type", "application/json")];
          req_Body := Some b |} w.
Proof.
  apply ConfirmRequest_world.
Qed.

(** X12: GetPassword hands back the body of the response as it is,
    whatever the status of the response. *)
Theorem GetPassword_ignores_status (api : caAPI) (req : caMyRequest) (w : World)
    (u : URL) (httpResponse : Response) (bytes : string) :
  let httpReq := {| Method := "GET"; req_URL := u;
                    Header := [("Authorization", LogonKey api)]; req_Body := None |} in
  url_Parse (Base api ++ "/PasswordVault/WebServices/PIMServices.svc/Accounts/" ++
             AccountID req ++ "/Credentials") = (u, None) ->
  api_Client api (List.length (calls w)) httpReq = inl httpResponse ->
  Body httpResponse = (bytes, None) ->
  GetPassword api req w = (bytes, api, sent httpReq w, None).
Proof.
  cbv zeta. intros HU HC HB. unfold GetPassword. cbv zeta.
  rewrite (http_NewRequest_ok _ _ _ _ HU), Client_Do_sent.
  unfold Header_Set. simpl. simpl in HC. rewrite HC, HB. reflexivity.
Qed.

(** X13: MyRequests and GetPassword have no guard on the token: whatever
    the token, empty included, they send their GET with the token as
    Authorization header. *)
Theorem MyRequests_GetPassword_unguarded (api : caAPI) (w : World) :
  (forall u, url_Parse (Base api ++ "/PasswordVault/API/MyRequests") = (u, None) ->
     exists httpReq,
       snd (fst (MyRequests api w)) = sent httpReq w /\
       Method httpReq = "GET" /\ Header httpReq = [("Authorization", LogonKey api)]) /\
  (forall req u,
     url_Parse (Base api ++ "/PasswordVault/WebServices/PIMServices.svc/Accounts/" ++
                AccountID req ++ "/Credentials") = (u, None) ->
     exists httpReq,
       snd (fst (GetPassword api req w)) = sent httpReq w /\
       Method httpReq = "GET" /\ Header httpReq = [("Authorization", LogonKey api)]).
Proof.
  split.
  - intros u HU.
    exists (setQuery "onlywaiting" "false" "expired" "false"
              (Header_Set "Authorization" (LogonKey api)
                 {| Method := "GET"; req_URL := u; Header := []; req_Body := None |})).
    unfold MyRequests. cbv zeta.
    rewrite (http_NewRequest_ok _ _ _ _ HU), Client_Do_sent.
    split; [| split; reflexivity].
    destruct (api_Client api _ _) as [resp | e]; [| reflexivity].
    destruct (Body resp) as [body [e |]]; [reflexivity |].
    destruct (json_Unmarshal_caMyRequestsResponse body _) as [c [e |]]; [reflexivity |].
    destruct (negb (String.eqb (errorCode c) "")); reflexivity.
  - intros req u HU.
    exists (Header_Set "Authorization" (LogonKey api)
              {| Method := "GET"; req_URL := u; Header := []; req_Body := None |}).
    unfold GetPassword. cbv zeta.
    rewrite (http_NewRequest_ok _ _ _ _ HU), Client_Do_sent.
    split; [| split; reflexivity].
    destruct (api_Client api _ _) as [resp | e]; [| reflexivity].
    destruct (Body resp) as [body [e |]]; reflexivity.
Qed.

(** X14: with a token, Logout sends one POST that carries the token as
    Authorization header, and succeeds as soon as any response comes back:
    neither the status nor the body of the response is looked at. *)
Theorem Logout_ignores_response (api : caAPI) (w : World) (u : URL) (resp : Response) :
  let req := {| Method := "POST"; req_URL := u;
                Header := [("Authorization", LogonKey api)]; req_Body := None |} in
  LogonKey api <> "" ->
  url_Parse (Base api ++
    "/PasswordVault/WebServices/auth/Cyberark/CyberArkAuthenticationService.svc/Logoff")
    = (u, None) ->
  api_Client api (List.length (calls w)) req = inl resp ->
  Logout api w = (api, sent req w, None).
Proof.
  cbv zeta. intros HK HU HC. unfold Logout.
  destruct (String.eqb_spec (LogonKey api) ""); [contradiction |].
  cbv zeta. rewrite (http_NewRequest_ok _ _ _ _ HU), Client_Do_sent.
  unfold Header_Add. simpl. simpl in HC. rewrite HC. reflexivity.
Qed.

End MoreSessionProperties.

(* ================================================================= *)
(** ** The commands of main.go *)

Section CommandProperties.

Context {lib : GoLib} {mlib : MainLib}.

(** *** retrieve *)

Lemma retrieve_loop_session (reqs : list caMyRequest) : forall ca w,
  fst (retrieve_loop ca reqs w) = ca.
Proof.
  induction reqs as [| r rest IH]; intros ca w; simpl.
  - reflexivity.
  - pose proof (GetPassword_prints_nothing ca r w) as [_ [_ Hs]].
    destruct (GetPassword ca r w) as [[[passwd ca'] w'] [err |]]; simpl in Hs; subst ca';
      apply IH.
Qed.

(** X15: a batch is retrieved piece by piece: retrieving one list and
    then another is retrieving the first and then, from the world this
    left and whatever failed in it, the second; the session is the same at
    the end. *)
Theorem retrieve_loop_app (ca : caAPI) (l1 l2 : list caMyRequest) (w : World) :
  retrieve_loop ca (l1 ++ l2) w =
    retrieve_loop ca l2 (snd (retrieve_loop ca l1 w)) /\
  fst (retrieve_loop ca (l1 ++ l2) w) = ca.
Proof.
  split; [| apply retrieve_loop_session].
  revert ca w. induction l1 as [| r rest IH]; intros ca w; simpl.
  - reflexivity.
  - pose proof (GetPassword_prints_nothing ca r w) as [_ [_ Hs]].
    destruct (GetPassword ca r w) as [[[passwd ca'] w'] [err |]]; simpl in Hs; subst ca';
      apply IH.
Qed.

Lemma GetPassword_answered (ca : caAPI) (r : caMyRequest) (w : World)
    (code : nat -> Z) (body : nat -> string) :
  (forall url, snd (url_Parse url) = None) ->
  (forall n req, api_Client ca n req = inl {| StatusCode := code n; Body := (body n, None) |}) ->
  exists req, GetPassword ca r w = (body (List.length (calls w)), ca, sent req w, None).
Proof.
  intros HU HC. unfold GetPassword. cbv zeta. unfold http_NewRequest.
  destruct (url_Parse _) as [u e] eqn:E.
  pose proof (HU (Base ca ++ "/PasswordVault/WebServices/PIMServices.svc/Accounts/" ++
                  AccountID r ++ "/Credentials")) as HU'.
  rewrite E in HU'. simpl in HU'. subst e.
  rewrite Client_Do_sent, HC. simpl. eauto.
Qed.

(** X16: when every URL parses and the server answers every request
    with a readable body, the batch prints one line per request, in the
    order of the requests, each with the body of its own answer, and sends
    one request per item. *)
Theorem retrieve_loop_all_answered (ca : caAPI) (code : nat -> Z) (body : nat -> string)
    (reqs : list caMyRequest) (w : World) :
  (forall url, snd (url_Parse url) = None) ->
  (forall n req, api_Client ca n req = inl {| StatusCode := code n; Body := (body n, None) |}) ->
  stdout (snd (retrieve_loop ca reqs w)) =
    (stdout w ++ credentialLines body (List.length (calls w)) reqs)%list /\
  List.length (calls (snd (retrieve_loop ca reqs w))) =
    (List.length (calls w) + List.length reqs)%nat /\
  stderr (snd (retrieve_loop ca reqs w)) = stderr w.
Proof.
  intros HU HC. revert w. induction reqs as [| r rest IH]; intros w.
  - simpl. rewrite app_nil_r. auto.
  - destruct (GetPassword_answered ca r w code body HU HC) as [req HG].
    assert (Hstep : retrieve_loop ca (r :: rest) w =
                    retrieve_loop ca rest
                      (Print (credentialLine r (body (List.length (calls w)))) (sent req w))).
    { simpl retrieve_loop. rewrite HG. reflexivity. }
    rewrite Hstep.
    destruct (IH (Print (credentialLine r (body (List.length (calls w)))) (sent req w)))
      as [Ho [Hc He]].
    rewrite Ho, Hc, He. simpl. rewrite !length_app. simpl.
    split; [| split; [lia | reflexivity]].
    rewrite <- app_assoc. simpl.
    replace (List.length (calls w) + 1)%nat with (S (List.length (calls w))) by lia.
    reflexivity.
Qed.

Lemma retrieve_listing_outcomes (ca : caAPI) (w : World) :
  (forall url, snd (url_Parse url) = None) ->
  (forall e, api_Client ca (List.length (calls w)) (myRequestsRequest ca) = inr e ->
     retrieve ca w = (ca, Print (e ++ newline) (sent (myRequestsRequest ca) w), Some 1)) /\
  (forall resp respBody,
     api_Client ca (List.length (calls w)) (myRequestsRequest ca) = inl resp ->
     Body resp = (respBody, None) ->
     json_Unmarshal_exported_caMyRequestsResponse respBody [] = ([], None) ->
     retrieve ca w =
       (ca, Print ("There are no requests." ++ newline) (sent (myRequestsRequest ca) w),
        Some 0)).
Proof.
  intros HU.
  assert (HN : http_NewRequest "GET" (Base ca ++ "/PasswordVault/API/MyRequests") None =
               ({| Method := "GET";
                   req_URL := fst (url_Parse (Base ca ++ "/PasswordVault/API/MyRequests"));
                   Header := []; req_Body := None |}, None)).
  { unfold http_NewRequest. pose proof (HU (Base ca ++ "/PasswordVault/API/MyRequests")) as H.
    destruct (url_Parse _) as [u e]. simpl in H. subst e. reflexivity. }
  split.
  - intros e HC. unfold retrieve, MyRequests. cbv zeta.
    rewrite HN, Client_Do_sent. unfold myRequestsRequest in HC. rewrite HC. reflexivity.
  - intros resp respBody HC HB HD. unfold retrieve, MyRequests. cbv zeta.
    rewrite HN, Client_Do_sent. unfold myRequestsRequest in HC. rewrite HC, HB.
    unfold json_Unmarshal_caMyRequestsResponse. simpl MyRequests_. rewrite HD.
    reflexivity.
Qed.

(** X17: what retrieve does when the listing gives nothing to fetch: a
    transport failure is printed and ends the process with status 1; a
    response that decodes to an empty sequence prints that there are no
    requests and ends the process with status 0.  In both cases the
    listing is the only request sent. *)
Theorem retrieve_nothing_to_fetch (ca : caAPI) (w : World) :
  (forall url, snd (url_Parse url) = None) ->
  (forall e, api_Client ca (List.length (calls w)) (myRequestsRequest ca) = inr e ->
     retrieve ca w = (ca, Print (e ++ newline) (sent (myRequestsRequest ca) w), Some 1)) /\
  (forall resp respBody,
     api_Client ca (List.length (calls w)) (myRequestsRequest ca) = inl resp ->
     Body resp = (respBody, None) ->
     json_Unmarshal_exported_caMyRequestsResponse respBody [] = ([], None) ->
     retrieve ca w =
       (ca, Print ("There are no requests." ++ newline) (sent (myRequestsRequest ca) w),
        Some 0)).
Proof.
  apply retrieve_listing_outcomes.
Qed.

(** *** listIncoming *)

Lemma listIncoming_loop_prints (reqs : list caIncomingRequest) : forall w,
  listIncoming_loop reqs w =
  {| calls := calls w; stdout := (stdout w ++ map incomingLine reqs)%list;
     stderr := stderr w |}.
Proof.
  induction reqs as [| a rest IH]; intros w; simpl.
  - rewrite app_nil_r. destruct w; reflexivity.
  - rewrite IH. unfold Print. simpl. rewrite <- app_assoc. reflexivity.
Qed.

(** X18: listIncoming prints one line per incoming request, in the order
    of the response, and returns; for an empty sequence it prints that
    there are none instead.  It prints nothing else and sends nothing
    beyond the listing itself. *)
Theorem listIncoming_lines (api api' : caAPI) (w w' : World)
    (response : caIncomingRequestsResponse) :
  IncomingRequests api w = (response, api', w', None) ->
  listIncoming api w =
    (api',
     {| calls := calls w';
        stdout := List.app (stdout w')
                   match IncomingRequests_ response with
                   | [] => ["There are no incoming requests." ++ newline]
                   | reqs => map incomingLine reqs
                   end;
        stderr := stderr w' |},
     None).
Proof.
  intros HI. unfold listIncoming. rewrite HI.
  destruct (IncomingRequests_ response) as [| a rest] eqn:E.
  - reflexivity.
  - replace (Z.of_nat (List.length (a :: rest)) =? 0) with false
      by (symmetry; apply Z.eqb_neq; simpl List.length; lia).
    rewrite listIncoming_loop_prints. reflexivity.
Qed.

(** X19: without a token both the list and the approve command print
    that no logon key exists and end the process with status 1, and no
    request is sent. *)
Theorem commands_need_token (api : caAPI) (w : World) (reason allowed : string) :
  LogonKey api = "" ->
  listIncoming api w = (api, Print ("no logon key exists" ++ newline) w, Some 1) /\
  (strings.Trim allowed " " <> "" ->
   approveIncoming reason api allowed w =
     (api, Print ("no logon key exists" ++ newline) w, Some 1)).
Proof.
  intros HK.
  assert (HI : IncomingRequests api w =
               (zero_caIncomingRequestsResponse, api, w, Some NotAuthenticated)).
  { unfold IncomingRequests. cbv zeta. rewrite HK. reflexivity. }
  split.
  - unfold listIncoming. rewrite HI. reflexivity.
  - intros HT. unfold approveIncoming. cbv zeta.
    destruct (String.eqb_spec (strings.Trim allowed " ") ""); [contradiction |].
    rewrite HI. reflexivity.
Qed.

(** *** approveIncoming *)

Lemma TrimLeft_allSpaces (s : string) :
  allSpaces s = true -> strings.TrimLeft s " " = EmptyString.
Proof.
  induction s as [| c rest IH]; intros H; simpl in *.
  - reflexivity.
  - apply andb_true_iff in H. destruct H as [Hc Hr]. rewrite Hc. apply IH. exact Hr.
Qed.

(** X20: an allow-list that is empty or made of spaces only ends the
    approve command with status 1 and a message on standard error, before
    any request is sent. *)
Theorem approveIncoming_blank_allow_list (reason : string) (api : caAPI) (allowed : string)
    (w : World) :
  allSpaces allowed = true ->
  approveIncoming reason api allowed w =
    (api, Eprint ("No corporate keys specified using `-users'." ++ newline) w, Some 1).
Proof.
  intros H. unfold approveIncoming, strings.Trim. cbv zeta.
  rewrite (TrimLeft_allSpaces allowed H). reflexivity.
Qed.

Lemma approveIncoming_loop_cons (reason : string) (users : list string) (api : caAPI)
    (a : caIncomingRequest) (rest : list caIncomingRequest) (w : World) :
  approveIncoming_loop reason users api (a :: rest) w =
  if users_ok users (strings_ToUpper (RequestorUserName a)) then
    match ConfirmRequest api a reason
            (Print ("Confirming: " ++ strings_ToUpper (RequestorUserName a) ++ ", '" ++
                    Name (incoming_Properties a) ++ "' ('" ++ UserReason a ++ "')... ") w)
    with
    | (api, w, Some err) =>
        approveIncoming_loop reason users api rest
          (Eprint ("Unable to confirm request: " ++ Error err ++ newline)
             (Print ("failed!" ++ newline) w))
    | (api, w, None) =>
        approveIncoming_loop reason users api rest (Print ("ok!" ++ newline) w)
    end
  else
    approveIncoming_loop reason users api rest
      (Print ("Ignoring: " ++ strings_ToUpper (RequestorUserName a) ++ ", " ++
              String dquote (UserReason a) ++
              String dquote " from " ++ Time_String (Time (AccessFrom a)) ++
              " to " ++ Time_String (Time (AccessTo a)) ++ newline) w).
Proof. reflexivity. Qed.

Lemma approveIncoming_loop_allowed (reason : string) (users : list string) (api : caAPI)
    (a : caIncomingRequest) (rest : list caIncomingRequest) (w : World) :
  (forall p, snd (json_Marshal_caConfirmRequest p) = None) ->
  (forall url, snd (url_Parse url) = None) ->
  users_ok users (strings_ToUpper (RequestorUserName a)) = true ->
  exists w1, calls w1 = (calls w ++ [confirmRequestOf api reason a])%list /\
    approveIncoming_loop reason users api (a :: rest) w =
    approveIncoming_loop reason users api rest w1.
Proof.
  intros HM HU Hok.
  set (w0 := Print ("Confirming: " ++ strings_ToUpper (RequestorUserName a) ++ ", '" ++
                    Name (incoming_Properties a) ++ "' ('" ++ UserReason a ++ "')... ") w).
  assert (Hw : snd (fst (ConfirmRequest api a reason w0)) =
               sent (confirmRequestOf api reason a) w0).
  { apply ConfirmRequest_world.
    - pose proof (HM {| Reason := reason |}) as H.
      destruct (json_Marshal_caConfirmRequest {| Reason := reason |}) as [b e].
      simpl in H. subst e. reflexivity.
    - pose proof (HU (Base api ++ "/PasswordVault/API/IncomingRequests/" ++
                      RequestID a ++ "/Confirm")) as H.
      destruct (url_Parse _) as [u e]. simpl in H. subst e. reflexivity. }
  pose proof (ConfirmRequest_keeps_session api a reason w0) as Hs.
  destruct (ConfirmRequest api a reason w0) as [[api' w2] [err |]] eqn:EC;
    simpl in Hw, Hs; subst api' w2.
  - exists (Eprint ("Unable to confirm request: " ++ Error err ++ newline)
              (Print ("failed!" ++ newline) (sent (confirmRequestOf api reason a) w0))).
    split; [reflexivity |].
    rewrite approveIncoming_loop_cons, Hok. fold w0. rewrite EC. reflexivity.
  - exists (Print ("ok!" ++ newline) (sent (confirmRequestOf api reason a) w0)).
    split; [reflexivity |].
    rewrite approveIncoming_loop_cons, Hok. fold w0. rewrite EC. reflexivity.
Qed.

Lemma approveIncoming_loop_ignored (reason : string) (users : list string) (api : caAPI)
    (a : caIncomingRequest) (rest : list caIncomingRequest) (w : World) :
  users_ok users (strings_ToUpper (RequestorUserName a)) = false ->
  exists w1, calls w1 = calls w /\ stderr w1 = stderr w /\
    approveIncoming_loop reason users api (a :: rest) w =
    approveIncoming_loop reason users api rest w1.
Proof.
  intros Hok. eexists. split; [| split]; [| | rewrite approveIncoming_loop_cons, Hok;
                                               reflexivity]; reflexivity.
Qed.

(** X21: when the reason can be encoded and every URL parses, the approve
    loop sends one confirmation for each incoming request whose requestor,
    in upper case, is in the allow-set, in the order of the requests, and
    nothing for the others; a confirmation that fails does not stop the
    loop, and the session is as before at the end. *)
Theorem approveIncoming_loop_confirms_allowed (reason : string) (users : list string)
    (api : caAPI) (reqs : list caIncomingRequest) (w : World) :
  (forall p, snd (json_Marshal_caConfirmRequest p) = None) ->
  (forall url, snd (url_Parse url) = None) ->
  calls (snd (approveIncoming_loop reason users api reqs w)) =
    (calls w ++
     map (confirmRequestOf api reason)
         (filter (fun a => users_ok users (strings_ToUpper (RequestorUserName a))) reqs))%list /\
  fst (approveIncoming_loop reason users api reqs w) = api.
Proof.
  intros HM HU. revert w. induction reqs as [| a rest IH]; intros w.
  - simpl. rewrite app_nil_r. auto.
  - destruct (users_ok users (strings_ToUpper (RequestorUserName a))) eqn:Hok.
    + destruct (approveIncoming_loop_allowed reason users api a rest w HM HU Hok)
        as [w1 [Hc Hstep]].
      rewrite Hstep. destruct (IH w1) as [IHc IHs]. rewrite IHc, IHs, Hc.
      simpl filter. rewrite Hok. simpl map. rewrite <- app_assoc. auto.
    + destruct (approveIncoming_loop_ignored reason users api a rest w Hok)
        as [w1 [Hc [_ Hstep]]].
      rewrite Hstep. destruct (IH w1) as [IHc IHs]. rewrite IHc, IHs, Hc.
      simpl filter. rewrite Hok. auto.
Qed.

Lemma users_ok_In (users : list string) (r : string) :
  users_ok users r = true <-> In r users.
Proof.
  unfold users_ok. rewrite existsb_exists. split.
  - intros [x [Hin Heq]]. apply String.eqb_eq in Heq. subst x. exact Hin.
  - intros Hin. exists r. split; [exact Hin | apply String.eqb_refl].
Qed.

Lemma fold_left_users (f : string -> string) (l : list string) : forall acc r,
  In r (fold_left (fun users u => users_insert (f u) users) l acc) <->
  In r acc \/ exists u, In u l /\ f u = r.
Proof.
  induction l as [| x rest IH]; intros acc r; simpl.
  - split; [auto | intros [H | [u [[] _]]]; exact H].
  - rewrite IH. unfold users_insert. simpl. split.
    + intros [[H | H] | [u [Hin Hf]]]; eauto.
    + intros [H | [u [[H | H] Hf]]]; subst; eauto.
Qed.

Lemma Split_piece (e rest : string) :
  anyByte isComma e = false ->
  strings.Split (e ++ String "," rest) "," = e :: strings.Split rest ",".
Proof.
  induction e as [| c e' IH]; intros H; simpl in *.
  - reflexivity.
  - apply orb_false_iff in H. destruct H as [Hc He]. unfold isComma in Hc.
    rewrite Hc, (IH He). reflexivity.
Qed.

Lemma Split_last (e : string) :
  anyByte isComma e = false -> strings.Split e "," = [e].
Proof.
  induction e as [| c e' IH]; intros H; simpl in *.
  - reflexivity.
  - apply orb_false_iff in H. destruct H as [Hc He]. unfold isComma in Hc.
    rewrite Hc, (IH He). reflexivity.
Qed.

(** Splitting at the commas undoes joining with commas. *)
Lemma Split_concat (entries : list string) :
  entries <> [] -> (forall e, In e entries -> anyByte isComma e = false) ->
  strings.Split (String.concat "," entries) "," = entries.
Proof.
  induction entries as [| e rest IH]; intros Hne Hc; [contradiction |].
  destruct rest as [| e' rest'].
  - simpl. apply Split_last. apply Hc. left. reflexivity.
  - change (String.concat "," (e :: e' :: rest'))
      with (e ++ String "," (String.concat "," (e' :: rest'))).
    rewrite Split_piece by (apply Hc; left; reflexivity).
    rewrite IH; [reflexivity | discriminate |].
    intros x Hx. apply Hc. right. exact Hx.
Qed.

(** X22: what the allow-set holds: for entries joined by commas, a
    requestor name in upper case is in the set exactly when it is the
    upper-cased, space-trimmed form of one of the entries. *)
Theorem allow_list_matches (entries : list string) (requestor : string) :
  entries <> [] -> (forall e, In e entries -> anyByte isComma e = false) ->
  (users_ok (make_users (String.concat "," entries)) requestor = true <->
   exists e, In e entries /\ strings_ToUpper (strings.Trim e " ") = requestor).
Proof.
  intros Hne Hc. rewrite users_ok_In. unfold make_users.
  rewrite (Split_concat entries Hne Hc).
  change (fun (users : list string) (u : string) =>
            let u0 := strings.Trim u " " in
            let u1 := strings_ToUpper u0 in users_insert u1 users)
    with (fun (users : list string) (u : string) =>
            users_insert ((fun u => strings_ToUpper (strings.Trim u " ")) u) users).
  rewrite fold_left_users. simpl. tauto.
Qed.

(** *** main *)

Lemma listIncoming_exit (api : caAPI) (w : World) :
  snd (listIncoming api w) = None \/ snd (listIncoming api w) = Some 1.
Proof.
  unfold listIncoming.
  destruct (IncomingRequests api w) as [[[r api'] w'] [e |]]; [right; reflexivity |].
  destruct (_ =? 0); left; reflexivity.
Qed.

Lemma approveIncoming_exit (reason : string) (api : caAPI) (allowed : string) (w : World) :
  snd (approveIncoming reason api allowed w) = None \/
  snd (approveIncoming reason api allowed w) = Some 1.
Proof.
  unfold approveIncoming. cbv zeta.
  destruct (String.eqb _ ""); [right; reflexivity |].
  destruct (IncomingRequests api w) as [[[r api'] w'] [e |]]; [right; reflexivity |].
  destruct (_ =? 0); [left; reflexivity |].
  destruct (approveIncoming_loop _ _ _ _ _). left. reflexivity.
Qed.

Lemma retrieve_exit (ca : caAPI) (w : World) :
  snd (retrieve ca w) = None \/ snd (retrieve ca w) = Some 0 \/ snd (retrieve ca w) = Some 1.
Proof.
  unfold retrieve.
  destruct (MyRequests ca w) as [[[r ca'] w'] [e |]]; [right; right; reflexivity |].
  destruct (_ =? 0); [right; left; reflexivity |].
  destruct (retrieve_loop _ _ _). left. reflexivity.
Qed.

(** X23: whatever the command line, the server and the terminal do, the
    process ends with status 0 or 1. *)
Theorem main_exit_status (flags : Flags) (client : Client)
    (readPassword : string * option string) (w : World) :
  snd (main flags client readPassword w) = 0 \/ snd (main flags client readPassword w) = 1.
Proof.
  unfold main.
  destruct (String.eqb (flagUsername flags) ""); [right; reflexivity |].
  assert (Hlogged : forall password w0,
    let r := match Login {| api_Client := client; Base := flagBaseURL flags; LogonKey := "" |}
                     (flagUsername flags) password w0 with
             | (_, w1, Some err) => (Print ("Could not login: " ++ Error err ++ newline) w1, 1)
             | (api, w1, None) =>
                 let '(api, w2, exit) :=
                   if String.eqb (flagOperation flags) "list" then listIncoming api w1
                   else if String.eqb (flagOperation flags) "approve" then
                     approveIncoming (flagConfirmReason flags) api (flagAllowedCorpKeys flags) w1
                   else if String.eqb (flagOperation flags) "retrieve" then retrieve api w1
                   else (api, w1, None) in
                 match exit with
                 | Some code => (w2, code)
                 | None => let '(_, w3) := logout api w2 in (w3, 0)
                 end
             end in
    snd r = 0 \/ snd r = 1).
  { intros password w0. cbv zeta.
    destruct (Login _ (flagUsername flags) password w0) as [[api1 w1] [err |]];
      [right; reflexivity |].
    destruct (String.eqb (flagOperation flags) "list").
    { pose proof (listIncoming_exit api1 w1) as H.
      destruct (listIncoming api1 w1) as [[api2 w2] [c |]]; simpl in H.
      - destruct H as [H | H]; inversion H. right. reflexivity.
      - destruct (logout api2 w2). left. reflexivity. }
    destruct (String.eqb (flagOperation flags) "approve").
    { pose proof (approveIncoming_exit (flagConfirmReason flags) api1
                    (flagAllowedCorpKeys flags) w1) as H.
      destruct (approveIncoming _ api1 _ w1) as [[api2 w2] [c |]]; simpl in H.
      - destruct H as [H | H]; inversion H. right. reflexivity.
      - destruct (logout api2 w2). left. reflexivity. }
    destruct (String.eqb (flagOperation flags) "retrieve").
    { pose proof (retrieve_exit api1 w1) as H.
      destruct (retrieve api1 w1) as [[api2 w2] [c |]]; simpl in H.
      - destruct H as [H | [H | H]]; inversion H; [left | right]; reflexivity.
      - destruct (logout api2 w2). left. reflexivity. }
    destruct (logout api1 w1). left. reflexivity. }
  destruct (negb (String.eqb (flagPassword flags) "")).
  - apply Hlogged.
  - destruct readPassword as [pwd [e |]]; [right; reflexivity |]. apply Hlogged.
Qed.





End CommandProperties.

(* ================================================================= *)
(** ** The further properties on the sample vault *)

Lemma Login_failure_keeps_session_witness :
  fst (fst (@Login sampleLib (session [inr "connection refused"] "stale") "alice" "hunter2"
              emptyWorld)) = session [inr "connection refused"] "stale".
Proof.
  apply (@Login_failure_keeps_session sampleLib (session [inr "connection refused"] "stale")
           "alice" "hunter2" emptyWorld).
  discriminate.
Defined.

Lemma Login_failure_reports_witness :
  snd (@Login sampleLib
         (session [inl {| StatusCode := 200; Body := ("{", Some "unexpected EOF") |}] "")
         "alice" "hunter2" emptyWorld) = Some (errorString "whoops").
Proof.
  destruct (@Login_failure_reports sampleLib
              (session [inl {| StatusCode := 200; Body := ("{", Some "unexpected EOF") |}] "")
              "alice" "hunter2" emptyWorld) as [_ [_ [H _]]].
  erewrite H; reflexivity.
Defined.

Lemma ConfirmRequest_status_200_witness :
  snd (@ConfirmRequest sampleLib (session [ok "<html>"] "AAEAAAD") sample_incoming "approved"
         emptyWorld) = None.
Proof.
  erewrite (@ConfirmRequest_status_200 sampleLib (session [ok "<html>"] "AAEAAAD")
              sample_incoming "approved" emptyWorld); reflexivity.
Defined.

Lemma ConfirmRequest_request_witness :
  calls (snd (fst (@ConfirmRequest sampleLib (session [] "AAEAAAD") sample_incoming
                     "approved" emptyWorld))) =
  [ {| Method := "POST";
       req_URL := {| Location := "https://pwv.example/PasswordVault/API/IncomingRequests/7_15/Confirm";
                     RawQuery := "" |};
       Header := [("Authorization", "AAEAAAD"); ("Content-Type", "application/json")];
       req_Body := Some ("{" ++ quoted "Reason" ++ ":" ++ quoted "approved" ++ "}") |} ].
Proof.
  erewrite (@ConfirmRequest_request sampleLib (session [] "AAEAAAD") sample_incoming
              "approved" emptyWorld); reflexivity.
Defined.

Lemma GetPassword_ignores_status_witness :
  fst (fst (fst (@GetPassword sampleLib (session [status 401 "Unauthorized"] "") mq_admin
                   emptyWorld))) = "Unauthorized" /\
  snd (@GetPassword sampleLib (session [status 401 "Unauthorized"] "") mq_admin emptyWorld) =
    None.
Proof.
  erewrite (@GetPassword_ignores_status sampleLib (session [status 401 "Unauthorized"] "")
              mq_admin emptyWorld); [| reflexivity | reflexivity | reflexivity].
  split; reflexivity.
Defined.

Lemma MyRequests_GetPassword_unguarded_witness :
  exists httpReq,
    snd (fst (@MyRequests sampleLib (session [] "") emptyWorld)) = sent httpReq emptyWorld /\
    Method httpReq = "GET" /\ Header httpReq = [("Authorization", "")].
Proof.
  destruct (@MyRequests_GetPassword_unguarded sampleLib (session [] "") emptyWorld) as [H _].
  apply (H {| Location := "https://pwv.example/PasswordVault/API/MyRequests";
              RawQuery := "" |}).
  reflexivity.
Defined.

Lemma Logout_ignores_response_witness :
  snd (@Logout sampleLib (session [status 500 "Internal Server Error"] "AAEAAAD") emptyWorld)
    = None.
Proof.
  erewrite (@Logout_ignores_response sampleLib
              (session [status 500 "Internal Server Error"] "AAEAAAD") emptyWorld);
    [| discriminate | reflexivity | reflexivity].
  reflexivity.
Defined.

Lemma retrieve_loop_all_answered_witness :
  stdout (snd (@retrieve_loop sampleLib
                 {| api_Client := answering (fun _ => 200) (fun n => bareForm (Z.of_nat n));
                    Base := "https://pwv.example"; LogonKey := "AAEAAAD" |}
                 sample_requests emptyWorld)) =
  ["db-root = 0" ++ newline; "mq-admin = 1" ++ newline; "web-admin = 2" ++ newline].
Proof.
  destruct (@retrieve_loop_all_answered sampleLib
              {| api_Client := answering (fun _ => 200) (fun n => bareForm (Z.of_nat n));
                 Base := "https://pwv.example"; LogonKey := "AAEAAAD" |}
              (fun _ => 200) (fun n => bareForm (Z.of_nat n)) sample_requests emptyWorld)
    as [H _]; [reflexivity | reflexivity |].
  rewrite H. reflexivity.
Defined.

Lemma retrieve_nothing_to_fetch_witness :
  @retrieve sampleLib (session [ok "{}"] "AAEAAAD") emptyWorld =
  (session [ok "{}"] "AAEAAAD",
   Print ("There are no requests." ++ newline)
     (sent (@myRequestsRequest sampleLib (session [ok "{}"] "AAEAAAD")) emptyWorld),
   Some 0).
Proof.
  destruct (@retrieve_nothing_to_fetch sampleLib (session [ok "{}"] "AAEAAAD") emptyWorld)
    as [_ H]; [reflexivity |].
  apply (H {| StatusCode := 200; Body := ("{}", None) |} "{}"); reflexivity.
Defined.

Lemma listIncoming_lines_witness :
  stdout (snd (fst (@listIncoming sampleLib2 (session [ok body_incoming_requests] "AAEAAAD")
                      emptyWorld))) =
  map incomingLine sample_incoming_requests.
Proof.
  erewrite (@listIncoming_lines sampleLib2 (session [ok body_incoming_requests] "AAEAAAD"));
    [| reflexivity].
  reflexivity.
Defined.

Lemma commands_need_token_witness :
  @listIncoming sampleLib (session [] "") emptyWorld =
    (session [] "", Print ("no logon key exists" ++ newline) emptyWorld, Some 1) /\
  @approveIncoming sampleLib sampleMainLib "ok" (session [] "") "bob" emptyWorld =
    (session [] "", Print ("no logon key exists" ++ newline) emptyWorld, Some 1).
Proof.
  destruct (@commands_need_token sampleLib sampleMainLib (session [] "") emptyWorld
              "ok" "bob" eq_refl) as [H1 H2].
  split; [exact H1 | apply H2; discriminate].
Defined.

Lemma approveIncoming_blank_allow_list_witness :
  @approveIncoming sampleLib sampleMainLib "ok" (session [] "AAEAAAD") "   " emptyWorld =
  (session [] "AAEAAAD",
   Eprint ("No corporate keys specified using `-users'." ++ newline) emptyWorld, Some 1).
Proof.
  apply (@approveIncoming_blank_allow_list sampleLib sampleMainLib "ok"
           (session [] "AAEAAAD") "   " emptyWorld).
  reflexivity.
Defined.

Lemma approveIncoming_loop_confirms_allowed_witness :
  calls (snd (@approveIncoming_loop sampleLib sampleMainLib "ok"
                (@make_users sampleMainLib "bob , Carol")
                (session [status 500 "{"; ok ""] "AAEAAAD")
                sample_incoming_requests emptyWorld)) =
  [ @confirmRequestOf sampleLib (session [status 500 "{"; ok ""] "AAEAAAD") "ok"
      (incoming_from "7_15" "Bob");
    @confirmRequestOf sampleLib (session [status 500 "{"; ok ""] "AAEAAAD") "ok"
      (incoming_from "7_17" "carol") ].
Proof.
  destruct (@approveIncoming_loop_confirms_allowed sampleLib sampleMainLib "ok"
              (@make_users sampleMainLib "bob , Carol")
              (session [status 500 "{"; ok ""] "AAEAAAD")
              sample_incoming_requests emptyWorld) as [H _];
    [reflexivity | reflexivity |].
  rewrite H. reflexivity.
Defined.

Lemma allow_list_matches_witness :
  @users_ok (@make_users sampleMainLib (String.concat "," [" bob "; "Carol"])) "CAROL" = true.
Proof.
  apply (@allow_list_matches sampleMainLib [" bob "; "Carol"] "CAROL").
  - discriminate.
  - intros e [<- | [<- | []]]; reflexivity.
  - exists "Carol". split; [right; left; reflexivity | reflexivity].
Defined.



